(** * nreplClient: the nREPL request/response correlator and its operations

    A shallow embedding of [src/nreplClient.ts].

    - JavaScript objects built by the module (the request messages) are
      insertion-ordered association lists living in a heap of shared
      objects, because [send] mutates the caller's object in place.
    - Decoded response objects follow the [Response] interface.
    - A promise is a three-state value; [resolve] and [reject] only act on
      a pending promise.
    - The socket, the host notification sink and the shared connection are
      a world state with an effect trace; the socket's ['data'] and
      ['error'] callbacks are handlers run by an event dispatcher.
    - The promise chains of the public operations are programs of a small
      free monad whose only blocking primitive is [send].

    [console.log] output is not part of the model. *)

From Stdlib Require Import ZArith.
From stdpp Require Import base list strings.

Open Scope string_scope.
Open Scope list_scope.

(** ** JavaScript values and message objects *)

(** Values of type [any]. *)
#[warnings="-register-all"]
Inductive any : Type :=
| Undefined
| Null
| Bool (b : bool)
| Num (n : Z)
| Str (s : string)
| Arr (elems : list any)
| Obj (fields : list (string * any)).

(** [v === undefined] *)
Definition is_undefined (v : any) : bool :=
  match v with Undefined => true | _ => false end.

(** [s] used as a condition, for [s : string | undefined]:
    [undefined] and the empty string are falsy. *)
Definition truthy (s : option string) : bool :=
  match s with
  | Some s => negb (String.eqb s "")
  | None => false
  end.

(** [x : string | undefined] stored as a property value. *)
Definition of_optional (x : option string) : any :=
  match x with Some s => Str s | None => Undefined end.

(** A plain object: its own keys in insertion order. *)
Abbreviation JsObject := (list (string * any)).

Module JsObj.

(** [Object.keys(o)] *)
Definition keys (o : JsObject) : list string := map fst o.

(** [key in o] *)
Definition has (key : string) (o : JsObject) : bool :=
  existsb (String.eqb key) (keys o).

(** [o[key]]: [undefined] when the key is absent. *)
Fixpoint get (key : string) (o : JsObject) : any :=
  match o with
  | [] => Undefined
  | (k, v) :: o' => if String.eqb k key then v else get key o'
  end.

(** [delete o[key]] *)
Definition delete (key : string) (o : JsObject) : JsObject :=
  List.filter (fun kv => negb (String.eqb (fst kv) key)) o.

End JsObj.

(** Line 159:
    [Object.keys(msg).forEach(key => msg[key] === undefined && delete msg[key])].
    The key array is taken once; the callback reads and deletes on the
    object as it is at that step. *)
Definition strip_undefined (msg : JsObject) : JsObject :=
  fold_left
    (fun m key => if is_undefined (JsObj.get key m) then JsObj.delete key m else m)
    (JsObj.keys msg) msg.

(** ** Response objects *)

Module Frame.
Record StackFrame : Type := mk {
  flags : list string;
  class : string;
  method : string;
  file : string;
  line : Z
}.
End Frame.

Module Resp.
(** [interface Response]: every field is optional. *)
Record Response : Type := mk {
  session : option string;
  status : option (list string);
  new_session : option string;
  sessions : option (list string);
  file : option string;
  line : option Z;
  column : option Z;
  doc : option string;
  completions : option (list any);
  name : option string;
  special_form : option any;
  class : option string;
  message : option string;
  stacktrace : option (list Frame.StackFrame)
}.

(** [{}] *)
Definition empty : Response :=
  mk None None None None None None None None None None None None None None.
End Resp.

Abbreviation Response := Resp.Response.

(** [arr.indexOf(x)]: position of the first element equal to [x], or [-1]. *)
Fixpoint indexOf_from (x : string) (arr : list string) (i : Z) : Z :=
  match arr with
  | [] => (-1)%Z
  | y :: arr' => if String.eqb y x then i else indexOf_from x arr' (i + 1)%Z
  end.

Definition indexOf (x : string) (arr : list string) : Z := indexOf_from x arr 0%Z.

(** [[...nreplObjects].pop()]: the last element of a copy, [None] for
    [undefined]. Then
    [!!lastObj && !!lastObj.status && lastObj.status.indexOf('done') > -1]. *)
Definition isLastNreplObject (nreplObjects : list Response) : bool :=
  match last nreplObjects with
  | None => false
  | Some lastObj =>
      match Resp.status lastObj with
      | None => false
      | Some st => (-1 <? indexOf "done" st)%Z
      end
  end.

(** The status list of a response object contains the completion marker. *)
Definition has_done (r : Response) : Prop :=
  exists st, Resp.status r = Some st /\ In "done" st.

(** ** Promises *)

(** [interface CljConnectionInformation] *)
Record CljConnectionInformation : Type := {
  host : string;
  port : Z
}.

(** The error object a socket emits; [code] is read as [error['code']]. *)
Record SocketError : Type := {
  code : option string;
  errmsg : string
}.

(** What a promise of this module is rejected with. *)
Inductive Reason : Type :=
| RString (s : string)       (* reject('...') *)
| RError (e : SocketError)   (* reject(error) *)
| RBool (b : bool)           (* Promise.reject(false) *)
| RTypeError.                (* a property read on undefined, thrown in a callback *)

Inductive PromiseState (A : Type) : Type :=
| Pending
| Fulfilled (value : A)
| Rejected (reason : Reason).

Arguments Pending {A}.
Arguments Fulfilled {A} value.
Arguments Rejected {A} reason.

(** [resolve(v)] and [reject(r)]: a settled promise stays as it is. *)
Definition resolve {A} (v : A) (p : PromiseState A) : PromiseState A :=
  match p with Pending => Fulfilled v | _ => p end.

Definition reject {A} (r : Reason) (p : PromiseState A) : PromiseState A :=
  match p with Pending => Rejected r | _ => p end.

(** ** The world outside the module *)

Definition Buffer : Type := list Byte.byte.

(** [import * as bencodeUtil from './bencodeUtil']: the codec the module
    calls. Both functions are total: the requests built here hold only
    strings and one integer, and the decoder returns what it cannot decode
    yet as [rest]. *)
Record DecodedResult : Type := {
  decodedObjects : list Response;
  rest : Buffer
}.

Class BencodeUtil : Type := {
  encode : JsObject -> Buffer;
  decodeObjects : Buffer -> DecodedResult
}.

(** Calls made on the socket, the host window and the shared connection,
    in the order they happen. Sockets are numbered as they are created. *)
Inductive Effect : Type :=
| net_createConnection (client : nat) (port : Z) (host : string)
| client_write (client : nat) (data : Buffer)
| client_end (client : nat)
| client_removeAllListeners (client : nat)
| showErrorMessage (text : string)
| cljConnection_disconnect.

(** A reference to an object of the heap. *)
Definition ref : Type := nat.

Record World : Type := {
  heap : list JsObject;
  current : option CljConnectionInformation;
  sockets : nat;
  trace : list Effect
}.

Definition emit (e : Effect) (w : World) : World :=
  {| heap := heap w; current := current w; sockets := sockets w;
     trace := trace w ++ [e] |}.

(** An object literal: a new object, referenced by its position. *)
Definition alloc (o : JsObject) (w : World) : ref * World :=
  (length (heap w),
   {| heap := heap w ++ [o]; current := current w; sockets := sockets w;
      trace := trace w |}).

Definition store (r : ref) (o : JsObject) (w : World) : World :=
  {| heap := <[r := o]> (heap w); current := current w; sockets := sockets w;
     trace := trace w |}.

(** [net.createConnection(port, host)] *)
Definition createConnection (c : CljConnectionInformation) (w : World) : nat * World :=
  (sockets w,
   {| heap := heap w; current := current w; sockets := S (sockets w);
      trace := trace w ++ [net_createConnection (sockets w) (port c) (host c)] |}).

(** Modelled from the spec: [cljConnection.getConnection], the connection
    provider's "get current connection descriptor (host, port) or none". *)
Definition getConnection (w : World) : option CljConnectionInformation :=
  current w.

(** Modelled from the spec: [cljConnection.disconnect], the connection
    provider's "invalidate/disconnect current connection". *)
Definition disconnect (w : World) : World :=
  {| heap := heap w; current := None; sockets := sockets w;
     trace := trace w ++ [cljConnection_disconnect] |}.

(** [connection || cljConnection.getConnection()]: a descriptor is an
    object, hence truthy, and the lookup is not made when one is given. *)
Definition connection_or_current (connection : option CljConnectionInformation)
    (w : World) : option CljConnectionInformation :=
  match connection with
  | Some c => Some c
  | None => getConnection w
  end.

(** ** [send]: one socket per call *)

(** The pending request context of one call: the socket, whether its
    listeners are still attached, the undecoded remainder, the response
    objects collected so far and the promise handed to the caller. *)
Record Call : Type := {
  client : nat;
  listening : bool;
  nreplResp : Buffer;
  respObjects : list Response;
  promise : PromiseState (list Response)
}.

(** What the promise executor leaves behind: no socket at all, or a call
    in flight. *)
Inductive SendCall : Type :=
| NoCall (p : PromiseState (list Response))
| InFlight (c : Call).

Definition promise_of (s : SendCall) : PromiseState (list Response) :=
  match s with NoCall p => p | InFlight c => promise c end.

(** What a socket delivers to its listeners. *)
Inductive SocketEvent : Type :=
| data (d : Buffer)
| error (e : SocketError).

(** [error['code'] === 'ECONNREFUSED'] *)
Definition refused (e : SocketError) : bool :=
  match code e with
  | Some c => String.eqb c "ECONNREFUSED"
  | None => false
  end.

Section Send.

Context `{codec : BencodeUtil}.

(** Lines 152-160 and 172-173: the body of the promise executor up to
    the registration of the listeners. [msg] refers to an object of the
    heap; a reference to nothing would read as the empty object. *)
Definition send_executor (msg : ref) (connection : option CljConnectionInformation)
    (w : World) : SendCall * World :=
  match connection_or_current connection w with
  | None => (NoCall (reject (RString "No connection found.") Pending), w)
  | Some connection =>
      let (client, w) := createConnection connection w in
      let stripped := strip_undefined (default [] (heap w !! msg)) in
      let w := store msg stripped w in
      let w := emit (client_write client (encode stripped)) w in
      (InFlight {| client := client; listening := true; nreplResp := [];
                   respObjects := []; promise := Pending |}, w)
  end.

(** Lines 162-170: [client.on('error', ...)]. *)
Definition on_error (e : SocketError) (c : Call) (w : World) : Call * World :=
  let w := emit (client_end (client c)) w in
  let w := emit (client_removeAllListeners (client c)) w in
  let w :=
    if refused e
    then disconnect (emit (showErrorMessage "Connection refused.") w)
    else w in
  ({| client := client c; listening := false; nreplResp := nreplResp c;
      respObjects := respObjects c;
      promise := reject (RError e) (promise c) |}, w).

(** Lines 178-182: the reduce over one decode batch, from an empty
    accumulator. *)
Definition validDecodedObjects (decoded : list Response) : list Response :=
  fold_left
    (fun objs obj => if negb (isLastNreplObject objs) then objs ++ [obj] else objs)
    decoded [].

(** Lines 174-201: [client.on('data', ...)]. *)
Definition on_data (d : Buffer) (c : Call) (w : World) : Call * World :=
  let res := decodeObjects (nreplResp c ++ d) in
  let objs := respObjects c ++ validDecodedObjects (decodedObjects res) in
  if isLastNreplObject objs then
    let w := emit (client_end (client c)) w in
    let w := emit (client_removeAllListeners (client c)) w in
    ({| client := client c; listening := false; nreplResp := rest res;
        respObjects := objs; promise := resolve objs (promise c) |}, w)
  else
    ({| client := client c; listening := listening c; nreplResp := rest res;
        respObjects := objs; promise := promise c |}, w).

(** An event reaches a handler only while the listeners are attached. *)
Definition dispatch (cw : Call * World) (ev : SocketEvent) : Call * World :=
  if listening (fst cw) then
    match ev with
    | data d => on_data d (fst cw) (snd cw)
    | error e => on_error e (fst cw) (snd cw)
    end
  else cw.

Definition deliver (events : list SocketEvent) (cw : Call * World) : Call * World :=
  fold_left dispatch events cw.

(** A whole call: the executor, then the events its socket delivers. *)
Definition send_call (msg : ref) (connection : option CljConnectionInformation)
    (events : list SocketEvent) (w : World) : SendCall * World :=
  match send_executor msg connection w with
  | (NoCall p, w) => (NoCall p, w)
  | (InFlight c, w) =>
      let (c, w) := deliver events (c, w) in (InFlight c, w)
  end.

End Send.

(** ** Promise chains *)

(** A computation that ends in a promise: it settles at once, builds an
    object literal, or waits for [send(msg, connection)] and continues
    with the response objects. A rejected [send] rejects the chain. *)
Inductive Async (A : Type) : Type :=
| Promise_resolve (a : A)
| Promise_reject (r : Reason)
| new_object (o : JsObject) (k : ref -> Async A)
| send_then (msg : ref) (connection : option CljConnectionInformation)
    (k : list Response -> Async A).

Arguments Promise_resolve {A} a.
Arguments Promise_reject {A} r.
Arguments new_object {A} o k.
Arguments send_then {A} msg connection k.

(** [p.then(f)] *)
Fixpoint then_ {A B} (p : Async A) (f : A -> Async B) : Async B :=
  match p with
  | Promise_resolve a => f a
  | Promise_reject r => Promise_reject r
  | new_object o k => new_object o (fun r => then_ (k r) f)
  | send_then msg connection k => send_then msg connection (fun l => then_ (k l) f)
  end.

(** [send(msg, connection)] *)
Definition send (msg : ref) (connection : option CljConnectionInformation)
  : Async (list Response) :=
  send_then msg connection Promise_resolve.

(** [send({...}, connection)] on an object literal. *)
Definition send_literal (o : JsObject) (connection : option CljConnectionInformation)
  : Async (list Response) :=
  new_object o (fun msg => send msg connection).

(** The remote side: for every socket opened, in order, the events it
    delivers. A chain whose socket delivers no completion stays pending. *)
Definition Remote : Type := list (list SocketEvent).

Section Run.

Context `{codec : BencodeUtil}.

(** [send(msg, connection)] until its promise settles or its socket
    falls silent. A call that opened a socket uses up the next entry of
    the remote side. *)
Definition await_send (msg : ref) (connection : option CljConnectionInformation)
    (remote : Remote) (w : World)
  : PromiseState (list Response) * (Remote * World) :=
  match send_call msg connection (hd [] remote) w with
  | (NoCall p, w) => (p, (remote, w))
  | (InFlight c, w) => (promise c, (tl remote, w))
  end.

Fixpoint run {A} (p : Async A) (remote : Remote) (w : World)
  : PromiseState A * (Remote * World) :=
  match p with
  | Promise_resolve a => (Fulfilled a, (remote, w))
  | Promise_reject r => (Rejected r, (remote, w))
  | new_object o k => run (k (fst (alloc o w))) remote (snd (alloc o w))
  | send_then msg connection k =>
      match await_send msg connection remote w with
      | (Fulfilled l, (remote, w)) => run (k l) remote w
      | (Rejected r, rw) => (Rejected r, rw)
      | (Pending, rw) => (Pending, rw)
      end
  end.

End Run.

(** ** The operations of [nreplClient] *)

(** [respObjs => respObjs[0]]: [None] is [undefined]. *)
Definition first_response (respObjs : list Response) : option Response :=
  head respObjs.

Definition complete (symbol ns : string) : Async (option Response) :=
  new_object [("op", Str "complete"); ("symbol", Str symbol); ("ns", Str ns)]
    (fun msg =>
       then_ (send msg None) (fun respObjs => Promise_resolve (first_response respObjs))).

Definition info (symbol ns : string) (session : option string)
  : Async (option Response) :=
  new_object
    [("op", Str "info"); ("symbol", Str symbol); ("ns", Str ns);
     ("session", of_optional session)]
    (fun msg =>
       then_ (send msg None) (fun respObjs => Promise_resolve (first_response respObjs))).

(** Lines 110-117: the callback of [clone]. [filter(s => s)] keeps the
    truthy values, the array pattern [[session]] takes the first of them
    or [undefined]. *)
Definition clone_then (respObjs : list Response) : Async string :=
  let session := head (List.filter truthy (map Resp.new_session respObjs)) in
  match session with
  | Some (Some s) =>
      if truthy (Some s) then Promise_resolve s
      else Promise_reject (RString "No session found")
  | _ => Promise_reject (RString "No session found")
  end.

Definition clone (session : option string) : Async string :=
  then_ (send_literal [("op", Str "clone"); ("session", of_optional session)] None)
    clone_then.

Definition evaluate (code : string) (session : option string)
  : Async (list Response) :=
  then_ (clone session) (fun session_id =>
    new_object [("op", Str "eval"); ("code", Str code); ("session", Str session_id)]
      (fun msg => send msg None)).

Definition evaluateFile (code filepath : string) (session : option string)
  : Async (list Response) :=
  then_ (clone session) (fun session_id =>
    new_object
      [("op", Str "load-file"); ("file", Str code); ("file-path", Str filepath);
       ("session", Str session_id)]
      (fun msg => send msg None)).

Definition stacktrace (session : string) : Async (list Response) :=
  send_literal [("op", Str "stacktrace"); ("session", Str session)] None.

Definition runTests (namespace : option string) : Async (list Response) :=
  new_object
    [("op", Str (if truthy namespace then "test" else "test-all"));
     ("ns", of_optional namespace);
     ("load?", Num 1)]
    (fun message => send message None).

(** Lines 123-129: ['new-session' in response] throws on [undefined]. *)
Definition test_then (response : option Response) : Async (list Response) :=
  match response with
  | None => Promise_reject RTypeError
  | Some response =>
      if negb (bool_decide (is_Some (Resp.new_session response)))
      then Promise_reject (RBool false)
      else Promise_resolve []
  end.

Definition test (connectionInfo : CljConnectionInformation) : Async (list Response) :=
  then_
    (then_ (send_literal [("op", Str "clone")] (Some connectionInfo))
       (fun respObjs => Promise_resolve (first_response respObjs)))
    test_then.

Definition close (session : option string) : Async (list Response) :=
  send_literal [("op", Str "close"); ("session", of_optional session)] None.

(** Lines 135-143: the callback of [listSessions]. Reading [status] on
    [undefined] throws; [response.status[0]] is [undefined] on an empty
    list, which is not [== "done"]. *)
Definition listSessions_then (respObjs : list Response) : Async (list string) :=
  match first_response respObjs with
  | None => Promise_reject RTypeError
  | Some response =>
      match Resp.status response, Resp.sessions response with
      | Some st, Some sessions =>
          match head st with
          | Some s0 =>
              if String.eqb s0 "done" then Promise_resolve sessions
              else Promise_reject (RString "No sessions found")
          | None => Promise_reject (RString "No sessions found")
          end
      | _, _ => Promise_reject (RString "No sessions found")
      end
  end.

Definition listSessions : Async (list string) :=
  then_ (send_literal [("op", Str "ls-sessions")] None) listSessions_then.

(** ** A codec for worked examples

    One byte per response object, no remainder: [x00] is an object with no
    keys, [x01] is [{status: ["done"]}], [x02] is
    [{status: ["done"], sessions: ["s1", "s2"]}], [x03] is
    [{"new-session": "a"}], [x04] is [{"new-session": "b", status: ["done"]}],
    [x05] is [{"new-session": "", status: ["done"]}], [x06] is
    [{status: ["session-listed", "done"], sessions: ["s1"]}]; requests are
    encoded as the list of their keys' lengths. It stands in for the real
    codec only where a statement needs a concrete one. *)
Module Demo.

Definition with_status (st : list string) (r : Response) : Response :=
  Resp.mk (Resp.session r) (Some st) (Resp.new_session r) (Resp.sessions r)
    (Resp.file r) (Resp.line r) (Resp.column r) (Resp.doc r)
    (Resp.completions r) (Resp.name r) (Resp.special_form r) (Resp.class r)
    (Resp.message r) (Resp.stacktrace r).

Definition with_sessions (ss : list string) (r : Response) : Response :=
  Resp.mk (Resp.session r) (Resp.status r) (Resp.new_session r) (Some ss)
    (Resp.file r) (Resp.line r) (Resp.column r) (Resp.doc r)
    (Resp.completions r) (Resp.name r) (Resp.special_form r) (Resp.class r)
    (Resp.message r) (Resp.stacktrace r).

Definition with_new_session (s : string) (r : Response) : Response :=
  Resp.mk (Resp.session r) (Resp.status r) (Some s) (Resp.sessions r)
    (Resp.file r) (Resp.line r) (Resp.column r) (Resp.doc r)
    (Resp.completions r) (Resp.name r) (Resp.special_form r) (Resp.class r)
    (Resp.message r) (Resp.stacktrace r).

Definition done : Response := with_status ["done"] Resp.empty.

Definition object_of (b : Byte.byte) : Response :=
  match b with
  | Byte.x01 => done
  | Byte.x02 => with_sessions ["s1"; "s2"] done
  | Byte.x03 => with_new_session "a" Resp.empty
  | Byte.x04 => with_new_session "b" done
  | Byte.x05 => with_new_session "" done
  | Byte.x06 => with_sessions ["s1"] (with_status ["session-listed"; "done"] Resp.empty)
  | _ => Resp.empty
  end.

Definition key_length (kv : string * any) : Byte.byte :=
  default Byte.x00 (Byte.of_nat (String.length (fst kv))).

#[export] Instance codec : BencodeUtil := {|
  encode o := map key_length o;
  decodeObjects buf := {| decodedObjects := map object_of buf; rest := [] |}
|}.

Definition localhost : CljConnectionInformation := {| host := "localhost"; port := 7888 |}.

(** No object yet, no socket yet, no effect yet. *)
Definition connected : World :=
  {| heap := []; current := Some localhost; sockets := 0; trace := [] |}.

Definition disconnected : World :=
  {| heap := []; current := None; sockets := 0; trace := [] |}.

Definition econnrefused : SocketError :=
  {| code := Some "ECONNREFUSED"; errmsg := "connect ECONNREFUSED" |}.

End Demo.

(** ** Notions used by the statements *)

(** One object carries the completion marker, as the code tests it. *)
Definition is_done (r : Response) : bool := isLastNreplObject [r].

(** A list of response objects cut just after its first completion object. *)
Fixpoint through_done (l : list Response) : list Response :=
  match l with
  | [] => []
  | r :: l' => r :: (if is_done r then [] else through_done l')
  end.

Section Stream.

Context `{codec : BencodeUtil}.

(** The response objects the decoder yields, in order, for the data a
    socket delivers: every chunk is decoded together with the remainder
    of the chunks before it. An error ends the stream. *)
Fixpoint decoded_stream (buf : Buffer) (events : list SocketEvent) : list Response :=
  match events with
  | [] => []
  | data d :: events' =>
      decodedObjects (decodeObjects (buf ++ d))
        ++ decoded_stream (rest (decodeObjects (buf ++ d))) events'
  | error _ :: _ => []
  end.

(** The world after the executor ran with a connection: one socket
    more, the message object stripped in place, two effects. *)
Definition started (msg : ref) (c : CljConnectionInformation) (w : World) : World :=
  {| heap := <[msg := strip_undefined (default [] (heap w !! msg))]> (heap w);
     current := current w;
     sockets := S (sockets w);
     trace := (trace w ++ [net_createConnection (sockets w) (port c) (host c)])
                ++ [client_write (sockets w)
                      (encode (strip_undefined (default [] (heap w !! msg))))] |}.

Definition fresh_call (w : World) : Call :=
  {| client := sockets w; listening := true; nreplResp := [];
     respObjects := []; promise := Pending |}.

End Stream.

(** The effects that happened between two states of the world. *)
Definition since (w w' : World) : list Effect :=
  drop (length (trace w)) (trace w').

(** No object of the list carries the completion marker. *)
Definition clean (l : list Response) : bool :=
  forallb (fun r => negb (is_done r)) l.

(** A call is in flight: its listeners are attached, its promise is
    pending and no completion object has been collected. *)
Definition in_flight (c : Call) : Prop :=
  listening c = true /\ promise c = Pending /\ clean (respObjects c) = true.

(** A call is over: its listeners are gone, its socket was ended, and if
    the promise was fulfilled it holds the collected objects, the last of
    which is a completion object. *)
Definition over (c : Call) (w : World) : Prop :=
  listening c = false /\ promise c <> Pending /\
  In (client_end (client c)) (trace w) /\
  In (client_removeAllListeners (client c)) (trace w) /\
  forall l, promise c = Fulfilled l ->
    l = respObjects c /\ isLastNreplObject l = true.

(** The effects of the socket handlers. *)
Definition handler_effect (e : Effect) : bool :=
  match e with
  | client_end _ | client_removeAllListeners _
  | showErrorMessage _ | cljConnection_disconnect => true
  | net_createConnection _ _ _ | client_write _ _ => false
  end.

(** The handlers only add effects of their own; they create no socket and
    touch no object. *)
Definition grows (w w' : World) : Prop :=
  heap w' = heap w /\ sockets w' = sockets w /\
  (exists new, trace w' = trace w ++ new /\ forallb handler_effect new = true).

(** The clone request as it is encoded: with the session key when a
    session is given, without it otherwise. *)
Definition clone_request (session : option string) : JsObject :=
  match session with
  | Some s => [("op", Str "clone"); ("session", Str s)]
  | None => [("op", Str "clone")]
  end.

(** The request objects of [evaluate] and [evaluateFile] for a session id. *)
Definition eval_request (code session_id : string) : JsObject :=
  [("op", Str "eval"); ("code", Str code); ("session", Str session_id)].

Definition load_file_request (code filepath session_id : string) : JsObject :=
  [("op", Str "load-file"); ("file", Str code); ("file-path", Str filepath);
   ("session", Str session_id)].

(** ** Notions used by the further properties *)

(** The first error a socket emits, if it emits one. *)
Fixpoint first_error (events : list SocketEvent) : option SocketError :=
  match events with
  | [] => None
  | data _ :: events' => first_error events'
  | error e :: _ => Some e
  end.

(** What becomes of the promise of a call, given the objects decoded
    before the first error and that error: fulfilled as soon as a
    completion object was decoded, else rejected with the error, else
    still pending. *)
Definition outcome (stream : list Response) (err : option SocketError)
  : PromiseState (list Response) :=
  if clean stream then
    match err with
    | Some e => Rejected (RError e)
    | None => Pending
    end
  else Fulfilled (through_done stream).

(** The effects by which a call is wound up, by the state of its promise. *)
Definition closing (client : nat) (p : PromiseState (list Response)) : list Effect :=
  match p with
  | Pending => []
  | Fulfilled _ => [client_end client; client_removeAllListeners client]
  | Rejected r =>
      [client_end client; client_removeAllListeners client]
        ++ match r with
           | RError e =>
               if refused e
               then [showErrorMessage "Connection refused."; cljConnection_disconnect]
               else []
           | _ => []
           end
  end.

(** The promise was rejected with a connection-refused error. *)
Definition rejected_refused {A} (p : PromiseState A) : bool :=
  match p with
  | Rejected (RError e) => refused e
  | _ => false
  end.

Section Streaming.

Context `{codec : BencodeUtil}.

(** A decoder that can be fed in pieces: decoding a buffer followed by
    more data gives the objects of the buffer, then those of the
    remainder followed by the data, and leaves the same remainder. *)
Definition streaming : Prop :=
  decodedObjects (decodeObjects []) = [] /\
  rest (decodeObjects []) = [] /\
  forall buf d,
    decodedObjects (decodeObjects (buf ++ d))
    = decodedObjects (decodeObjects buf)
        ++ decodedObjects (decodeObjects (rest (decodeObjects buf) ++ d)) /\
    rest (decodeObjects (buf ++ d))
    = rest (decodeObjects (rest (decodeObjects buf) ++ d)).

(** Between two states of the world one request, the encoding of [o],
    was sent to [c] on a new socket, and nothing else happened but effects
    of the handlers of that socket. *)
Definition sends_one (o : JsObject) (c : CljConnectionInformation) (w w' : World) : Prop :=
  exists new,
    since w w'
    = [net_createConnection (sockets w) (port c) (host c);
       client_write (sockets w) (encode o)] ++ new /\
    forallb handler_effect new = true.

(** An operation fails at once for want of a connection: it is rejected
    with 'No connection found.', no socket is created, nothing of the
    remote side is used and no effect happens. *)
Definition fails_fast {A} (p : Async A) (remote : Remote) (w : World) : Prop :=
  fst (run p remote w) = Rejected (RString "No connection found.") /\
  fst (snd (run p remote w)) = remote /\
  trace (snd (snd (run p remote w))) = trace w /\
  sockets (snd (snd (run p remote w))) = sockets w /\
  current (snd (snd (run p remote w))) = current w.

End Streaming.

(** * Properties *)

(** ** Completion detection *)

Lemma indexOf_from_ge x arr i : (0 <= i)%Z -> (-1 < indexOf_from x arr i)%Z <-> In x arr.
Proof.
  revert i. induction arr as [|y arr IH]; intros i Hi; simpl.
  - split; [lia | tauto].
  - destruct (String.eqb_spec y x) as [->|Hne].
    + split; [auto | lia].
    + rewrite IH by lia. split; [auto | intros [?|?]; [congruence | assumption]].
Qed.

Lemma indexOf_found x arr : (-1 <? indexOf x arr)%Z = true <-> In x arr.
Proof. rewrite Z.ltb_lt. apply indexOf_from_ge. lia. Qed.

Lemma is_done_has_done r : is_done r = true <-> has_done r.
Proof.
  unfold is_done, isLastNreplObject, has_done. simpl.
  destruct (Resp.status r) as [st|].
  - rewrite indexOf_found. split.
    + intros H. exists st. auto.
    + intros (st' & E & H). congruence.
  - split; [discriminate | intros (st' & E & _); discriminate].
Qed.

Lemma isLastNreplObject_snoc l r : isLastNreplObject (l ++ [r]) = is_done r.
Proof. unfold is_done, isLastNreplObject. rewrite last_snoc. reflexivity. Qed.

Lemma isLastNreplObject_last l :
  isLastNreplObject l = true <-> exists init r, l = init ++ [r] /\ is_done r = true.
Proof.
  destruct l as [|x l] using rev_ind.
  - split; [discriminate | intros (init & r & E & _); destruct init; discriminate].
  - rewrite isLastNreplObject_snoc. split.
    + intros H. exists l, x. auto.
    + intros (init & r & E & H). apply app_inj_tail in E as [_ ->]. exact H.
Qed.

(** Once the accumulator of the reduce ends in a completion object, it no
    longer grows. *)
Lemma reduce_after_done decoded objs :
  isLastNreplObject objs = true ->
  fold_left
    (fun objs obj => if negb (isLastNreplObject objs) then objs ++ [obj] else objs)
    decoded objs = objs.
Proof.
  induction decoded as [|r decoded IH]; intros H; simpl; [reflexivity|].
  rewrite H. simpl. apply IH, H.
Qed.

Lemma reduce_before_done decoded objs :
  isLastNreplObject objs = false ->
  fold_left
    (fun objs obj => if negb (isLastNreplObject objs) then objs ++ [obj] else objs)
    decoded objs = objs ++ through_done decoded.
Proof.
  revert objs. induction decoded as [|r decoded IH]; intros objs H; simpl.
  - symmetry. apply app_nil_r.
  - rewrite H. simpl. destruct (is_done r) eqn:D.
    + apply reduce_after_done. rewrite isLastNreplObject_snoc. exact D.
    + rewrite IH by (rewrite isLastNreplObject_snoc; exact D).
      rewrite <- app_assoc. reflexivity.
Qed.

Lemma validDecodedObjects_through_done `{BencodeUtil} decoded :
  validDecodedObjects decoded = through_done decoded.
Proof. unfold validDecodedObjects. apply (reduce_before_done decoded []). reflexivity. Qed.

(** [through_done] keeps a prefix: either the whole list, which then holds
    no completion object, or everything up to the first one. *)
Lemma through_done_cases l :
  (through_done l = l /\ clean l = true) \/
  (exists pre d post,
      l = pre ++ d :: post /\ through_done l = pre ++ [d] /\
      clean pre = true /\ is_done d = true).
Proof.
  unfold clean. induction l as [|r l IH]; simpl.
  - left. auto.
  - destruct (is_done r) eqn:D.
    + right. exists [], r, l. auto.
    + destruct IH as [[E F]|(pre & d & post & E & T & F & Dd)].
      * left. rewrite E, F. auto.
      * right. exists (r :: pre), d, post. simpl. rewrite D, F, T, E. auto.
Qed.

Lemma through_done_app_clean l l' :
  clean l = true ->
  through_done (l ++ l') = l ++ through_done l'.
Proof.
  unfold clean. induction l as [|r l IH]; simpl; [reflexivity|].
  intros [D F]%andb_true_iff. apply negb_true_iff in D. rewrite D, IH by exact F.
  reflexivity.
Qed.

Lemma through_done_app_done pre d post l' :
  clean pre = true -> is_done d = true ->
  through_done ((pre ++ d :: post) ++ l') = pre ++ [d].
Proof.
  intros F D. rewrite <- app_assoc, through_done_app_clean by exact F.
  simpl. rewrite D. reflexivity.
Qed.

Lemma clean_no_done l pre d post :
  clean l = true -> l = pre ++ d :: post ->
  is_done d = false.
Proof.
  unfold clean. intros F ->. rewrite forallb_app in F. apply andb_true_iff in F as [_ F].
  simpl in F. apply andb_true_iff in F as [F _]. apply negb_true_iff, F.
Qed.


(** ** Stripping the absent keys *)

Lemma filter_all_true {A} (f : A -> bool) (l : list A) :
  (forall x, In x l -> f x = true) -> List.filter f l = l.
Proof.
  induction l as [|x l IH]; intros H; simpl; [reflexivity|].
  rewrite (H x) by (left; reflexivity). f_equal. apply IH. intros y Hy.
  apply H. right. exact Hy.
Qed.

Lemma filter_twice {A} (f g : A -> bool) (l : list A) :
  List.filter f (List.filter g l) = List.filter (fun x => g x && f x) l.
Proof.
  induction l as [|x l IH]; simpl; [reflexivity|].
  destruct (g x); simpl; [destruct (f x)|]; rewrite ?IH; reflexivity.
Qed.

Lemma get_filter_keys (f : string -> bool) key (o : JsObject) :
  f key = true ->
  JsObj.get key (List.filter (fun kv => f (fst kv)) o) = JsObj.get key o.
Proof.
  intros H. induction o as [|[k v] o IH]; simpl; [reflexivity|].
  destruct (String.eqb_spec k key) as [->|Hne].
  - rewrite H. simpl. rewrite String.eqb_refl. reflexivity.
  - destruct (f k); simpl; [|exact IH].
    destruct (String.eqb_spec k key); [contradiction | exact IH].
Qed.

Lemma get_delete_ne key k (o : JsObject) :
  k <> key -> JsObj.get k (JsObj.delete key o) = JsObj.get k o.
Proof.
  intros Hne. unfold JsObj.delete.
  apply (get_filter_keys (fun k' => negb (String.eqb k' key))).
  apply negb_true_iff, String.eqb_neq, Hne.
Qed.

(** The loop over a list of keys deletes exactly the entries of those
    keys that read as [undefined]. *)
Lemma strip_loop (ks : list string) (m : JsObject) :
  fold_left
    (fun m key => if is_undefined (JsObj.get key m) then JsObj.delete key m else m)
    ks m
  = List.filter
      (fun kv => negb (existsb (String.eqb (fst kv)) ks
                       && is_undefined (JsObj.get (fst kv) m))) m.
Proof.
  revert m. induction ks as [|k ks IH]; intros m; simpl.
  - symmetry. apply filter_all_true. reflexivity.
  - rewrite IH. destruct (is_undefined (JsObj.get k m)) eqn:U.
    + unfold JsObj.delete at 2. rewrite filter_twice.
      apply filter_ext_in. intros [k' v] _. simpl.
      destruct (String.eqb_spec k' k) as [->|Hne]; simpl.
      * rewrite U. reflexivity.
      * rewrite get_delete_ne by exact Hne. reflexivity.
    + apply filter_ext_in. intros [k' v] _. simpl.
      destruct (String.eqb_spec k' k) as [->|Hne]; simpl; [|reflexivity].
      rewrite U, andb_false_r. reflexivity.
Qed.

(** Line 159 keeps, in their order, the entries whose key does not read
    as [undefined]. *)
Lemma strip_undefined_filter (o : JsObject) :
  strip_undefined o
  = List.filter (fun kv => negb (is_undefined (JsObj.get (fst kv) o))) o.
Proof.
  unfold strip_undefined. rewrite strip_loop. apply filter_ext_in.
  intros [k v] Hin. simpl.
  replace (existsb (String.eqb k) (JsObj.keys o)) with true; [reflexivity|].
  symmetry. apply existsb_exists. exists k. split; [|apply String.eqb_refl].
  unfold JsObj.keys. apply in_map_iff. exists (k, v). auto.
Qed.

Lemma get_filter_keys_out (f : string -> bool) key (o : JsObject) :
  f key = false ->
  JsObj.get key (List.filter (fun kv => f (fst kv)) o) = Undefined.
Proof.
  intros H. induction o as [|[k v] o IH]; simpl; [reflexivity|].
  destruct (String.eqb_spec k key) as [->|Hne].
  - rewrite H. exact IH.
  - destruct (f k); simpl; [|exact IH].
    destruct (String.eqb_spec k key); [contradiction | exact IH].
Qed.

Lemma has_filter_keys (f : string -> bool) key (o : JsObject) :
  JsObj.has key (List.filter (fun kv => f (fst kv)) o) = f key && JsObj.has key o.
Proof.
  unfold JsObj.has, JsObj.keys. induction o as [|[k v] o IH]; simpl.
  - symmetry. apply andb_false_r.
  - destruct (String.eqb_spec key k) as [->|Hne]; simpl.
    + destruct (f k) eqn:F; simpl; [rewrite String.eqb_refl; reflexivity|].
      exact IH.
    + destruct (f k); simpl; [|exact IH].
      destruct (String.eqb_spec key k); [contradiction | exact IH].
Qed.

Lemma get_absent key (o : JsObject) :
  JsObj.has key o = false -> JsObj.get key o = Undefined.
Proof.
  unfold JsObj.has, JsObj.keys. induction o as [|[k v] o IH]; simpl; [reflexivity|].
  rewrite (String.eqb_sym key k). destruct (String.eqb k key); simpl; [discriminate|].
  exact IH.
Qed.

(** Reads are not changed by the stripping. *)
Lemma get_strip_undefined key (o : JsObject) :
  JsObj.get key (strip_undefined o) = JsObj.get key o.
Proof.
  rewrite strip_undefined_filter.
  destruct (is_undefined (JsObj.get key o)) eqn:U.
  - rewrite (get_filter_keys_out (fun k => negb (is_undefined (JsObj.get k o))))
      by (rewrite U; reflexivity).
    destruct (JsObj.get key o); try discriminate; reflexivity.
  - apply (get_filter_keys (fun k => negb (is_undefined (JsObj.get k o)))).
    rewrite U. reflexivity.
Qed.

(** A key is left exactly when it was there with a value other than
    [undefined]. *)
Lemma has_strip_undefined key (o : JsObject) :
  JsObj.has key (strip_undefined o) = negb (is_undefined (JsObj.get key o)).
Proof.
  rewrite strip_undefined_filter.
  rewrite (has_filter_keys (fun k => negb (is_undefined (JsObj.get k o)))).
  destruct (JsObj.has key o) eqn:H; [apply andb_true_r|].
  rewrite (get_absent _ _ H). reflexivity.
Qed.

(** ** The life of one call *)

Section CallFacts.

Context `{codec : BencodeUtil}.

Lemma deliver_app events events' cw :
  deliver (events ++ events') cw = deliver events' (deliver events cw).
Proof. unfold deliver. apply fold_left_app. Qed.

Lemma deliver_cons ev events cw :
  deliver (ev :: events) cw = deliver events (dispatch cw ev).
Proof. reflexivity. Qed.

Lemma deliver_detached events c w :
  listening c = false -> deliver events (c, w) = (c, w).
Proof.
  intros H. induction events as [|ev events IH]; [reflexivity|].
  rewrite deliver_cons.
  replace (dispatch (c, w) ev) with (c, w); [exact IH|].
  unfold dispatch. simpl. rewrite H. reflexivity.
Qed.

Lemma clean_app l l' : clean l = true -> clean l' = true -> clean (l ++ l') = true.
Proof. unfold clean. rewrite forallb_app. intros -> ->. reflexivity. Qed.

Lemma clean_last_not_done l : clean l = true -> isLastNreplObject l = false.
Proof.
  intros F. destruct (isLastNreplObject l) eqn:E; [|reflexivity].
  apply isLastNreplObject_last in E as (init & r & -> & D).
  erewrite (clean_no_done _ init r []) in D; eauto.
Qed.

(** What the ['data'] handler does to a call in flight. *)
Lemma on_data_in_flight d c w :
  in_flight c ->
  let res := decodeObjects (nreplResp c ++ d) in
  (clean (decodedObjects res) = true /\
   on_data d c w =
     ({| client := client c; listening := true; nreplResp := rest res;
         respObjects := respObjects c ++ decodedObjects res;
         promise := Pending |}, w)) \/
  (exists pre r post,
      decodedObjects res = pre ++ r :: post /\ clean pre = true /\
      is_done r = true /\
      on_data d c w =
        ({| client := client c; listening := false; nreplResp := rest res;
            respObjects := respObjects c ++ pre ++ [r];
            promise := Fulfilled (respObjects c ++ pre ++ [r]) |},
         emit (client_removeAllListeners (client c)) (emit (client_end (client c)) w))).
Proof.
  intros (L & P & F) res. unfold on_data. fold res.
  rewrite validDecodedObjects_through_done.
  destruct (through_done_cases (decodedObjects res))
    as [[E Fd]|(pre & r & post & E & T & Fp & D)].
  - left. split; [exact Fd|]. rewrite E.
    rewrite clean_last_not_done by (apply clean_app; assumption).
    rewrite L, P. reflexivity.
  - right. exists pre, r, post. repeat split; auto. rewrite T.
    rewrite app_assoc, isLastNreplObject_snoc, D, P. reflexivity.
Qed.

Lemma on_error_in_flight e c w :
  in_flight c ->
  on_error e c w =
    ({| client := client c; listening := false; nreplResp := nreplResp c;
        respObjects := respObjects c; promise := Rejected (RError e) |},
     if refused e
     then disconnect
            (emit (showErrorMessage "Connection refused.")
               (emit (client_removeAllListeners (client c))
                  (emit (client_end (client c)) w)))
     else emit (client_removeAllListeners (client c)) (emit (client_end (client c)) w)).
Proof. intros (_ & P & _). unfold on_error. rewrite P. reflexivity. Qed.

Lemma grows_refl w : grows w w.
Proof. repeat split. exists []. split; [symmetry; apply app_nil_r | reflexivity]. Qed.

Lemma grows_trans w1 w2 w3 : grows w1 w2 -> grows w2 w3 -> grows w1 w3.
Proof.
  intros (H1 & S1 & n1 & T1 & F1) (H2 & S2 & n2 & T2 & F2).
  repeat split; try congruence.
  exists (n1 ++ n2). rewrite T2, T1, app_assoc, forallb_app, F1, F2. auto.
Qed.

Lemma grows_emit e w : handler_effect e = true -> grows w (emit e w).
Proof. intros H. repeat split. exists [e]. simpl. rewrite H. auto. Qed.

Lemma grows_disconnect w : grows w (disconnect w).
Proof. repeat split. exists [cljConnection_disconnect]. auto. Qed.

Lemma dispatch_state c w ev :
  in_flight c \/ over c w ->
  (in_flight (fst (dispatch (c, w) ev)) \/
   over (fst (dispatch (c, w) ev)) (snd (dispatch (c, w) ev))) /\
  client (fst (dispatch (c, w) ev)) = client c /\
  grows w (snd (dispatch (c, w) ev)).
Proof.
  intros [I|O].
  - pose proof I as (L & P & F). unfold dispatch. simpl. rewrite L.
    destruct ev as [d|e].
    + destruct (on_data_in_flight d c w I)
        as [[Fd ->]|(pre & r & post & E & Fp & D & ->)]; simpl.
      * split; [|split; [reflexivity | apply grows_refl]].
        left. repeat split. simpl. apply clean_app; assumption.
      * split; [|split; [reflexivity |
          eapply grows_trans; apply grows_emit; reflexivity]].
        right. repeat split; simpl; try discriminate.
        -- apply in_or_app. left. apply in_or_app. right. left. reflexivity.
        -- apply in_or_app. right. left. reflexivity.
        -- simpl in H. congruence.
        -- simpl in H. injection H as <-.
           rewrite app_assoc, isLastNreplObject_snoc. exact D.
    + rewrite (on_error_in_flight e c w I). simpl.
      assert (G : grows w (emit (client_removeAllListeners (client c))
                             (emit (client_end (client c)) w)))
        by (eapply grows_trans; apply grows_emit; reflexivity).
      split; [|split; [reflexivity|]].
      * right. repeat split; simpl; try discriminate.
        -- destruct (refused e); simpl; rewrite !in_app_iff; simpl; tauto.
        -- destruct (refused e); simpl; rewrite !in_app_iff; simpl; tauto.
      * destruct (refused e); [|exact G].
        eapply grows_trans; [exact G|].
        eapply grows_trans; [|apply grows_disconnect]. apply grows_emit. reflexivity.
  - pose proof O as (L & _). unfold dispatch. simpl. rewrite L. simpl.
    split; [right; exact O | split; [reflexivity | apply grows_refl]].
Qed.

Lemma deliver_state events c w :
  in_flight c \/ over c w ->
  (in_flight (fst (deliver events (c, w))) \/
   over (fst (deliver events (c, w))) (snd (deliver events (c, w)))) /\
  client (fst (deliver events (c, w))) = client c /\
  grows w (snd (deliver events (c, w))).
Proof.
  revert c w. induction events as [|ev events IH]; intros c w H.
  - simpl. auto using grows_refl.
  - rewrite deliver_cons.
    destruct (dispatch_state c w ev H) as (H1 & C1 & G1).
    destruct (dispatch (c, w) ev) as [c1 w1]. simpl in *.
    destruct (IH c1 w1 H1) as (H2 & C2 & G2).
    split; [exact H2 | split; [congruence | eapply grows_trans; eauto]].
Qed.


End CallFacts.

(** ** The promise executor *)

Section ExecutorFacts.

Context `{codec : BencodeUtil}.

Lemma send_executor_connected msg connection w c :
  connection_or_current connection w = Some c ->
  send_executor msg connection w = (InFlight (fresh_call w), started msg c w).
Proof. intros E. unfold send_executor. rewrite E. reflexivity. Qed.

Lemma send_executor_no_connection msg connection w :
  connection_or_current connection w = None ->
  send_executor msg connection w =
    (NoCall (Rejected (RString "No connection found.")), w).
Proof. intros E. unfold send_executor. rewrite E. reflexivity. Qed.

Lemma fresh_call_in_flight w : in_flight (fresh_call w).
Proof. repeat split. Qed.

Lemma send_call_connected msg connection events w c :
  connection_or_current connection w = Some c ->
  send_call msg connection events w =
    (InFlight (fst (deliver events (fresh_call w, started msg c w))),
     snd (deliver events (fresh_call w, started msg c w))).
Proof.
  intros E. unfold send_call. rewrite (send_executor_connected _ _ _ _ E).
  destruct (deliver _ _). reflexivity.
Qed.

Lemma send_call_no_connection msg connection events w :
  connection_or_current connection w = None ->
  send_call msg connection events w =
    (NoCall (Rejected (RString "No connection found.")), w).
Proof.
  intros E. unfold send_call. rewrite (send_executor_no_connection _ _ _ E).
  reflexivity.
Qed.

(** A fulfilled promise comes from a call that had a connection. *)
Lemma send_call_fulfilled msg connection events w l :
  promise_of (fst (send_call msg connection events w)) = Fulfilled l ->
  exists c,
    connection_or_current connection w = Some c /\
    promise (fst (deliver events (fresh_call w, started msg c w))) = Fulfilled l.
Proof.
  destruct (connection_or_current connection w) as [c|] eqn:E.
  - rewrite (send_call_connected _ _ _ _ _ E). simpl. eauto.
  - rewrite (send_call_no_connection _ _ _ _ E). discriminate.
Qed.

End ExecutorFacts.

Section FulfilledFacts.

Context `{codec : BencodeUtil}.

(** A fulfilled [send] promise holds a list that ends in a completion
    object. *)
Lemma send_call_fulfilled_last msg connection events w l :
  promise_of (fst (send_call msg connection events w)) = Fulfilled l ->
  exists init lastObj, l = init ++ [lastObj] /\ has_done lastObj.
Proof.
  intros H. apply send_call_fulfilled in H as (c & _ & H).
  destruct (deliver_state events (fresh_call w) (started msg c w))
    as ([(_ & P & _)|(_ & _ & _ & _ & F)] & _ & _).
  { left. apply fresh_call_in_flight. }
  { congruence. }
  destruct (F l H) as (_ & Last).
  apply isLastNreplObject_last in Last as (init & r & -> & D).
  exists init, r. split; [reflexivity | apply is_done_has_done, D].
Qed.

End FulfilledFacts.

(** ** What a call does to the world *)

Section WorldFacts.

Context `{codec : BencodeUtil}.

Lemma since_app w w' new : trace w' = trace w ++ new -> since w w' = new.
Proof. intros E. unfold since. rewrite E. apply drop_app_length. Qed.

Lemma since_self w : since w w = [].
Proof. apply since_app. symmetry. apply app_nil_r. Qed.

(** While a call stays in flight its handlers have no effect on the
    world. *)
Lemma deliver_pending_quiet events c w :
  in_flight c ->
  promise (fst (deliver events (c, w))) = Pending ->
  snd (deliver events (c, w)) = w /\ in_flight (fst (deliver events (c, w))).
Proof.
  revert c. induction events as [|ev events IH]; intros c I H.
  - simpl. auto.
  - rewrite deliver_cons in *. pose proof I as (L & P & F).
    unfold dispatch in *. simpl in *. rewrite L in *.
    destruct ev as [d|e].
    + destruct (on_data_in_flight d c w I)
        as [[Fd E]|(pre & r & post & _ & _ & _ & E)]; rewrite E in *.
      * apply IH; [|exact H]. repeat split. simpl. apply clean_app; assumption.
      * rewrite deliver_detached in H by reflexivity. discriminate.
    + rewrite (on_error_in_flight e c w I) in H.
      rewrite deliver_detached in H by reflexivity. discriminate.
Qed.

Lemma started_grows_heap msg c w o :
  heap w !! msg = Some o ->
  heap (started msg c w) !! msg = Some (strip_undefined o).
Proof.
  intros H. unfold started. cbn [heap]. rewrite H. cbn [default].
  apply list_lookup_insert_eq. eapply lookup_lt_Some, H.
Qed.

Lemma started_other msg c w r :
  r <> msg -> heap (started msg c w) !! r = heap w !! r.
Proof. intros H. unfold started. cbn [heap]. apply list_lookup_insert_ne. congruence. Qed.

(** The world after a whole call that had a connection. *)
Lemma send_call_world msg connection events w c :
  connection_or_current connection w = Some c ->
  grows (started msg c w) (snd (send_call msg connection events w)).
Proof.
  intros E. rewrite (send_call_connected _ _ _ _ _ E). simpl.
  apply deliver_state. left. apply fresh_call_in_flight.
Qed.

End WorldFacts.

Section ErrorFacts.

Context `{codec : BencodeUtil}.

Lemma dispatch_error_detached c w e :
  listening (fst (dispatch (c, w) (error e))) = false.
Proof.
  unfold dispatch. simpl. destruct (listening c) eqn:L; [reflexivity | exact L].
Qed.

(** After an error event the call is over, and what the socket delivers
    afterwards reaches no handler. *)
Lemma deliver_error_over events e more c w :
  in_flight c ->
  deliver (events ++ error e :: more) (c, w) = deliver (events ++ [error e]) (c, w) /\
  over (fst (deliver (events ++ [error e]) (c, w)))
       (snd (deliver (events ++ [error e]) (c, w))) /\
  client (fst (deliver (events ++ [error e]) (c, w))) = client c.
Proof.
  intros I. rewrite !deliver_app, !deliver_cons. simpl.
  destruct (deliver_state events c w (or_introl I)) as (S1 & C1 & _).
  destruct (deliver events (c, w)) as [c1 w1]. simpl in *.
  destruct (dispatch_state c1 w1 (error e) S1) as (S2 & C2 & _).
  pose proof (dispatch_error_detached c1 w1 e) as L.
  destruct (dispatch (c1, w1) (error e)) as [c2 w2]. simpl in *.
  split; [apply deliver_detached, L|]. split; [|congruence].
  destruct S2 as [(L' & _)|O]; [congruence | exact O].
Qed.

(** The test of line 165 holds exactly for the code ECONNREFUSED. *)
Lemma refused_code e : refused e = true <-> code e = Some "ECONNREFUSED".
Proof.
  unfold refused. destruct (code e) as [s|].
  - rewrite String.eqb_eq. split; congruence.
  - split; discriminate.
Qed.

Lemma refused_other_code e : code e <> Some "ECONNREFUSED" -> refused e = false.
Proof.
  intros H. destruct (refused e) eqn:R; [|reflexivity].
  apply refused_code in R. contradiction.
Qed.

End ErrorFacts.

(** ** Running promise chains *)

Section RunFacts.

Context `{codec : BencodeUtil}.

(** The world when the promise of a call in flight is fulfilled: the
    socket was ended and its listeners removed, nothing else. *)
Lemma deliver_fulfilled_world events c w l :
  in_flight c ->
  promise (fst (deliver events (c, w))) = Fulfilled l ->
  snd (deliver events (c, w))
  = emit (client_removeAllListeners (client c)) (emit (client_end (client c)) w) /\
  l <> [].
Proof.
  revert c. induction events as [|ev events IH]; intros c I H.
  - destruct I as (_ & P & _). simpl in H. congruence.
  - rewrite deliver_cons in *. pose proof I as (L & P & F).
    unfold dispatch in *. simpl in *. rewrite L in *.
    destruct ev as [d|e].
    + destruct (on_data_in_flight d c w I)
        as [[Fd E]|(pre & r & post & _ & _ & _ & E)]; rewrite E in *.
      * apply IH in H; [exact H|]. repeat split. simpl. apply clean_app; assumption.
      * rewrite deliver_detached in * by reflexivity. simpl in *.
        injection H as <-. split; [reflexivity|].
        destruct (respObjects c); [destruct pre|]; discriminate.
    + rewrite (on_error_in_flight e c w I) in H.
      rewrite deliver_detached in H by reflexivity. discriminate.
Qed.

Lemma await_send_no_connection msg connection remote w :
  connection_or_current connection w = None ->
  await_send msg connection remote w
  = (Rejected (RString "No connection found."), (remote, w)).
Proof.
  intros E. unfold await_send. rewrite (send_call_no_connection _ _ _ _ E).
  reflexivity.
Qed.

Lemma await_send_connected msg connection remote w c :
  connection_or_current connection w = Some c ->
  await_send msg connection remote w
  = (promise (fst (deliver (hd [] remote) (fresh_call w, started msg c w))),
     (tl remote, snd (deliver (hd [] remote) (fresh_call w, started msg c w)))).
Proof.
  intros E. unfold await_send. rewrite (send_call_connected _ _ _ _ _ E).
  reflexivity.
Qed.

(** A fulfilled [send]: there was a connection, one entry of the remote
    side was used, the socket is closed, and the list of response
    objects is not empty. *)
Lemma await_send_fulfilled msg connection remote w l remote' w' :
  await_send msg connection remote w = (Fulfilled l, (remote', w')) ->
  exists c,
    connection_or_current connection w = Some c /\
    remote' = tl remote /\
    w' = emit (client_removeAllListeners (sockets w))
           (emit (client_end (sockets w)) (started msg c w)) /\
    l <> [].
Proof.
  destruct (connection_or_current connection w) as [c|] eqn:E.
  - rewrite (await_send_connected _ _ _ _ _ E). intros H.
    injection H as P <- <-.
    apply deliver_fulfilled_world in P as (W & N); [|apply fresh_call_in_flight].
    exists c. auto.
  - rewrite (await_send_no_connection _ _ _ _ E). discriminate.
Qed.

(** The world after [send], whatever became of its promise. *)
Lemma await_send_world msg connection remote w c :
  connection_or_current connection w = Some c ->
  grows (started msg c w) (snd (snd (await_send msg connection remote w))).
Proof.
  intros E. rewrite (await_send_connected _ _ _ _ _ E). simpl.
  apply deliver_state. left. apply fresh_call_in_flight.
Qed.

Lemma run_then {A B} (p : Async A) (f : A -> Async B) remote w :
  run (then_ p f) remote w =
  match run p remote w with
  | (Fulfilled a, (remote', w')) => run (f a) remote' w'
  | (Rejected r, rw) => (Rejected r, rw)
  | (Pending, rw) => (Pending, rw)
  end.
Proof.
  revert remote w. induction p as [a|r|o k IH|msg connection k IH]; intros remote w;
    simpl; try reflexivity.
  - apply IH.
  - destruct (await_send msg connection remote w) as [[|l|r] [remote' w']];
      [reflexivity | apply IH | reflexivity].
Qed.

Lemma run_send msg connection remote w :
  run (send msg connection) remote w = await_send msg connection remote w.
Proof.
  simpl. destruct (await_send msg connection remote w) as [[|l|r] [remote' w']];
    reflexivity.
Qed.

Lemma run_send_literal o connection remote w :
  run (send_literal o connection) remote w
  = await_send (length (heap w)) connection remote (snd (alloc o w)).
Proof. unfold send_literal. cbn [run]. apply run_send. Qed.

End RunFacts.

Section LiteralFacts.

Context `{codec : BencodeUtil}.

Lemma lookup_alloc o w : heap (snd (alloc o w)) !! length (heap w) = Some o.
Proof. simpl. rewrite lookup_app_r, Nat.sub_diag by lia. reflexivity. Qed.

Lemma insert_alloc o o' w :
  <[length (heap w) := o']> (heap (snd (alloc o w))) = heap w ++ [o'].
Proof.
  simpl. rewrite insert_app_r_alt, Nat.sub_diag by lia. reflexivity.
Qed.

(** [send] on a fresh object literal, with a connection: the socket is
    created, the stripped literal is written, and whatever follows is an
    effect of the handlers. The literal is left stripped in the heap. *)
Lemma await_literal o connection remote w c :
  connection_or_current connection w = Some c ->
  let w' := snd (snd (await_send (length (heap w)) connection remote (snd (alloc o w)))) in
  heap w' = heap w ++ [strip_undefined o] /\
  exists new,
    since w w'
    = [net_createConnection (sockets w) (port c) (host c);
       client_write (sockets w) (encode (strip_undefined o))] ++ new /\
    forallb handler_effect new = true.
Proof.
  intros E w'. subst w'.
  destruct (await_send_world (length (heap w)) connection remote (snd (alloc o w)) c E)
    as (H & _ & new & T & F).
  split.
  - rewrite H. unfold started. cbn [heap]. rewrite lookup_alloc. cbn [default].
    apply insert_alloc.
  - exists new. split; [|exact F]. apply since_app. rewrite T.
    unfold started. cbn [trace heap]. rewrite lookup_alloc. cbn [default].
    simpl. rewrite <- !app_assoc. reflexivity.
Qed.

Lemma await_literal_trace o connection remote w c :
  connection_or_current connection w = Some c ->
  exists new,
    trace (snd (snd (await_send (length (heap w)) connection remote (snd (alloc o w)))))
    = trace w
        ++ [net_createConnection (sockets w) (port c) (host c);
            client_write (sockets w) (encode (strip_undefined o))] ++ new /\
    forallb handler_effect new = true.
Proof.
  intros E.
  destruct (await_send_world (length (heap w)) connection remote (snd (alloc o w)) c E)
    as (_ & _ & new & T & F).
  exists new. split; [|exact F]. rewrite T.
  unfold started. cbn [trace heap]. rewrite lookup_alloc. cbn [default].
  simpl. rewrite <- !app_assoc. reflexivity.
Qed.

(** The same when the promise is fulfilled: the handlers ended the
    socket and removed the listeners, and did nothing else. *)
Lemma await_literal_fulfilled o connection remote w l remote' w' :
  await_send (length (heap w)) connection remote (snd (alloc o w))
  = (Fulfilled l, (remote', w')) ->
  exists c,
    connection_or_current connection w = Some c /\
    remote' = tl remote /\ l <> [] /\
    heap w' = heap w ++ [strip_undefined o] /\
    current w' = current w /\
    sockets w' = S (sockets w) /\
    trace w'
    = trace w ++ [net_createConnection (sockets w) (port c) (host c);
                  client_write (sockets w) (encode (strip_undefined o));
                  client_end (sockets w);
                  client_removeAllListeners (sockets w)].
Proof.
  intros H. apply await_send_fulfilled in H as (c & E & -> & -> & N).
  exists c. split; [exact E|]. split; [reflexivity|]. split; [exact N|].
  unfold started, emit. cbn [heap trace current sockets].
  rewrite lookup_alloc. cbn [default]. rewrite insert_alloc.
  repeat split. simpl. rewrite <- !app_assoc. reflexivity.
Qed.

End LiteralFacts.

Section RejectedFacts.

Context `{codec : BencodeUtil}.

Lemma deliver_rejected events c w r :
  in_flight c ->
  promise (fst (deliver events (c, w))) = Rejected r ->
  exists e, r = RError e.
Proof.
  revert c. induction events as [|ev events IH]; intros c I H.
  - destruct I as (_ & P & _). simpl in H. congruence.
  - rewrite deliver_cons in *. pose proof I as (L & P & F).
    unfold dispatch in *. simpl in *. rewrite L in *.
    destruct ev as [d|e].
    + destruct (on_data_in_flight d c w I)
        as [[Fd E]|(pre & r' & post & _ & _ & _ & E)]; rewrite E in *.
      * apply IH in H; [exact H|]. repeat split. simpl. apply clean_app; assumption.
      * rewrite deliver_detached in H by reflexivity. discriminate.
    + rewrite (on_error_in_flight e c w I) in H.
      rewrite deliver_detached in H by reflexivity. simpl in H.
      injection H as <-. eauto.
Qed.

(** [send] rejects with 'No connection found.' or with a socket error. *)
Lemma await_send_rejected msg connection remote w r rw :
  await_send msg connection remote w = (Rejected r, rw) ->
  r = RString "No connection found." \/ exists e, r = RError e.
Proof.
  destruct (connection_or_current connection w) as [c|] eqn:E.
  - rewrite (await_send_connected _ _ _ _ _ E). intros H. injection H as P _.
    right. eapply deliver_rejected; [apply fresh_call_in_flight | exact P].
  - rewrite (await_send_no_connection _ _ _ _ E). intros H. injection H as <- _.
    left. reflexivity.
Qed.

End RejectedFacts.

(** ** Claims about [send] *)



(** C4. The request written to the socket is the encoding of the message
    without the keys that read as [undefined]; the other entries are kept
    as they are, in their order. For
    [{op: "eval", code: ..., session: undefined}] only [op] and [code] are
    encoded. *)
Theorem C4_absent_keys_not_transmitted `{codec : BencodeUtil}
    (msg : ref) (connection : option CljConnectionInformation)
    (events : list SocketEvent) (w : World) (o : JsObject) :
  heap w !! msg = Some o ->
  (forall cl buf,
      In (client_write cl buf) (since w (snd (send_call msg connection events w))) ->
      buf = encode (strip_undefined o)) /\
  (forall c, connection_or_current connection w = Some c ->
      In (client_write (sockets w) (encode (strip_undefined o)))
        (since w (snd (send_call msg connection events w)))) /\
  (forall key, JsObj.has key (strip_undefined o) = true ->
      JsObj.get key (strip_undefined o) <> Undefined) /\
  strip_undefined o
    = List.filter (fun kv => negb (is_undefined (JsObj.get (fst kv) o))) o /\
  (forall code,
      strip_undefined [("op", Str "eval"); ("code", Str code); ("session", Undefined)]
      = [("op", Str "eval"); ("code", Str code)]).
Proof.
  intros Ho.
  assert (W : forall c, connection_or_current connection w = Some c ->
            exists new,
              since w (snd (send_call msg connection events w))
              = [net_createConnection (sockets w) (port c) (host c);
                 client_write (sockets w) (encode (strip_undefined o))] ++ new /\
              forallb handler_effect new = true).
  { intros c E. destruct (send_call_world msg _ events _ _ E) as (_ & _ & new & T & F).
    exists new. split; [|exact F]. apply since_app. rewrite T.
    unfold started. cbn [trace]. rewrite Ho. cbn [default].
    rewrite <- !app_assoc. reflexivity. }
  repeat split.
  - intros cl buf Hin.
    destruct (connection_or_current connection w) as [c|] eqn:E.
    + destruct (W c eq_refl) as (new & S & F). rewrite S in Hin.
      simpl in Hin. destruct Hin as [Hin|[Hin|Hin]]; [discriminate | congruence |].
      rewrite forallb_forall in F. apply F in Hin. discriminate.
    + rewrite (send_call_no_connection _ _ _ _ E) in Hin. simpl in Hin.
      rewrite since_self in Hin. destruct Hin.
  - intros c E. destruct (W c E) as (new & -> & _). simpl. auto.
  - intros key H. rewrite has_strip_undefined in H. rewrite get_strip_undefined.
    intros U. rewrite U in H. discriminate.
  - apply strip_undefined_filter.
Qed.

Lemma C4_absent_keys_not_transmitted_witness :
  since (snd (alloc [("op", Str "eval"); ("code", Str "(+ 1 2)"); ("session", Undefined)]
                Demo.connected))
    (snd (send_call (codec := Demo.codec) 0 None []
            (snd (alloc [("op", Str "eval"); ("code", Str "(+ 1 2)"); ("session", Undefined)]
                    Demo.connected))))
  = [net_createConnection 0 7888 "localhost";
     client_write 0 (@encode Demo.codec
                       [("op", Str "eval"); ("code", Str "(+ 1 2)")])] /\
  JsObj.get "session"
    (strip_undefined [("op", Str "eval"); ("code", Str "(+ 1 2)"); ("session", Undefined)])
  = Undefined.
Proof.
  split; [reflexivity|].
  pose proof (C4_absent_keys_not_transmitted (codec := Demo.codec) 0 None []
                (snd (alloc [("op", Str "eval"); ("code", Str "(+ 1 2)");
                             ("session", Undefined)] Demo.connected))
                [("op", Str "eval"); ("code", Str "(+ 1 2)"); ("session", Undefined)]
                eq_refl) as (_ & _ & _ & _ & E).
  rewrite (E "(+ 1 2)"). reflexivity.
Defined.

(** C5. Without a descriptor from the caller and without a current
    connection, the promise is rejected with 'No connection found.' and
    the world is left as it was, whatever happens later: no socket is
    created. A descriptor from the caller is the one the socket is opened
    to, whatever the current connection is. *)
Theorem C5_no_connection_no_socket `{codec : BencodeUtil}
    (msg : ref) (events : list SocketEvent) (w : World) :
  (getConnection w = None ->
     send_call msg None events w
       = (NoCall (Rejected (RString "No connection found.")), w) /\
     forall cl p h,
       ~ In (net_createConnection cl p h)
           (since w (snd (send_call msg None events w)))) /\
  (forall c,
     send_executor msg (Some c) w = (InFlight (fresh_call w), started msg c w) /\
     forall cl p h,
       In (net_createConnection cl p h)
          (since w (snd (send_call msg (Some c) events w))) ->
       cl = sockets w /\ p = port c /\ h = host c).
Proof.
  split.
  - intros E. rewrite (send_call_no_connection msg None events w E).
    split; [reflexivity|]. intros cl p h. simpl. rewrite since_self. intros [].
  - intros c. split; [apply send_executor_connected; reflexivity|].
    intros cl p h Hin.
    destruct (send_call_world msg (Some c) events w c eq_refl) as (_ & _ & new & T & F).
    rewrite (since_app w _ ([net_createConnection (sockets w) (port c) (host c);
                             client_write (sockets w)
                               (encode (strip_undefined (default [] (heap w !! msg))))]
                            ++ new)) in Hin
      by (rewrite T; unfold started; cbn [trace]; rewrite <- !app_assoc; reflexivity).
    simpl in Hin. destruct Hin as [Hin|[Hin|Hin]].
    + injection Hin as <- <- <-. auto.
    + discriminate.
    + rewrite forallb_forall in F. apply F in Hin. discriminate.
Qed.

Lemma C5_no_connection_no_socket_witness :
  send_call (codec := Demo.codec) 0 None [data [Byte.x01]]
    (snd (alloc [("op", Str "clone")] Demo.disconnected))
  = (NoCall (Rejected (RString "No connection found.")),
     snd (alloc [("op", Str "clone")] Demo.disconnected)).
Proof.
  apply (C5_no_connection_no_socket (codec := Demo.codec) 0 [data [Byte.x01]]
           (snd (alloc [("op", Str "clone")] Demo.disconnected))).
  reflexivity.
Defined.

(** C6. Take a call that opened a socket, and let the socket emit an
    error after any events. From then on the listeners are detached and
    the socket is ended, and nothing the socket delivers later changes
    anything. If the promise was still pending when the error came, it is
    rejected with the error. When the code of the error is ECONNREFUSED
    the call as a whole had these effects and no other: the socket was
    created, the request written, the socket ended, the listeners
    removed, one error message shown and the shared connection
    disconnected, which leaves no current connection. With any other
    code, or none, no message is shown and the shared connection is left
    as it was. *)
Theorem C6_socket_error `{codec : BencodeUtil}
    (msg : ref) (connection : option CljConnectionInformation)
    (c : CljConnectionInformation)
    (events more : list SocketEvent) (e : SocketError) (w : World) :
  connection_or_current connection w = Some c ->
  let before := send_call msg connection events w in
  let after := send_call msg connection (events ++ error e :: more) w in
  (exists call,
      fst after = InFlight call /\ client call = sockets w /\
      listening call = false /\
      In (client_end (sockets w)) (trace (snd after)) /\
      In (client_removeAllListeners (sockets w)) (trace (snd after))) /\
  after = send_call msg connection (events ++ [error e]) w /\
  (promise_of (fst before) = Pending ->
     promise_of (fst after) = Rejected (RError e) /\
     (code e = Some "ECONNREFUSED" ->
        since w (snd after)
        = [net_createConnection (sockets w) (port c) (host c);
           client_write (sockets w)
             (encode (strip_undefined (default [] (heap w !! msg))));
           client_end (sockets w);
           client_removeAllListeners (sockets w);
           showErrorMessage "Connection refused.";
           cljConnection_disconnect] /\
        getConnection (snd after) = None) /\
     (code e <> Some "ECONNREFUSED" ->
        since w (snd after)
        = [net_createConnection (sockets w) (port c) (host c);
           client_write (sockets w)
             (encode (strip_undefined (default [] (heap w !! msg))));
           client_end (sockets w);
           client_removeAllListeners (sockets w)] /\
        getConnection (snd after) = getConnection w)).
Proof.
  intros E before after. subst before after.
  rewrite !(send_call_connected _ _ _ _ _ E).
  destruct (deliver_error_over events e more (fresh_call w) (started msg c w)
              (fresh_call_in_flight w)) as (Same & (L & _ & En & Rm & _) & Cl).
  rewrite Same. simpl in Cl. rewrite Cl in En, Rm. split; [|split].
  - eexists. simpl. repeat split; eauto.
  - reflexivity.
  - simpl. intros P.
    destruct (deliver_pending_quiet events (fresh_call w) (started msg c w)
                (fresh_call_in_flight w) P) as (Q & I).
    rewrite deliver_app. simpl.
    destruct (deliver events (fresh_call w, started msg c w)) as [c1 w1] eqn:D.
    simpl in Q, I, P. subst w1. pose proof I as (L1 & _).
    unfold dispatch. simpl. rewrite L1.
    destruct (deliver_state events (fresh_call w) (started msg c w)
                (or_introl (fresh_call_in_flight w))) as (_ & C1 & _).
    rewrite D in C1. simpl in C1.
    rewrite (on_error_in_flight e c1 _ I), C1. simpl.
    split; [reflexivity|]. split.
    + intros Hc. rewrite (proj2 (refused_code e) Hc). simpl. split; [|reflexivity].
      apply since_app. simpl. rewrite <- !app_assoc. reflexivity.
    + intros Hc. rewrite (refused_other_code e Hc). simpl. split; [|reflexivity].
      apply since_app. simpl. rewrite <- !app_assoc. reflexivity.
Qed.

(** Connection refused when the socket is opened, with stray data after:
    one message, one disconnect, no current connection left. *)
Lemma C6_socket_error_witness :
  since (snd (alloc [("op", Str "clone")] Demo.connected))
    (snd (send_call (codec := Demo.codec) 0 None
            ([] ++ error Demo.econnrefused :: [data [Byte.x01]])
            (snd (alloc [("op", Str "clone")] Demo.connected))))
  = [net_createConnection 0 7888 "localhost";
     client_write 0 (@encode Demo.codec [("op", Str "clone")]);
     client_end 0;
     client_removeAllListeners 0;
     showErrorMessage "Connection refused.";
     cljConnection_disconnect] /\
  getConnection
    (snd (send_call (codec := Demo.codec) 0 None
            ([] ++ error Demo.econnrefused :: [data [Byte.x01]])
            (snd (alloc [("op", Str "clone")] Demo.connected))))
  = None.
Proof.
  destruct (C6_socket_error (codec := Demo.codec) 0 None Demo.localhost []
              [data [Byte.x01]] Demo.econnrefused
              (snd (alloc [("op", Str "clone")] Demo.connected)) eq_refl)
    as (_ & _ & H).
  destruct (H eq_refl) as (_ & R & _).
  exact (R eq_refl).
Defined.

(** ** Claims about the operations *)

Section OpsFacts.

Context `{codec : BencodeUtil}.

Lemma run_listSessions remote w :
  run listSessions remote w =
  match run (send_literal [("op", Str "ls-sessions")] None) remote w with
  | (Fulfilled respObjs, (remote', w')) => run (listSessions_then respObjs) remote' w'
  | (Rejected r, rw) => (Rejected r, rw)
  | (Pending, rw) => (Pending, rw)
  end.
Proof. apply run_then. Qed.

Lemma run_send_literal_nonempty o connection remote w l rw :
  run (send_literal o connection) remote w = (Fulfilled l, rw) -> l <> [].
Proof.
  rewrite run_send_literal. destruct rw as [remote' w']. intros H.
  apply await_literal_fulfilled in H as (c & _ & _ & N & _). exact N.
Qed.

End OpsFacts.

(** C2, as stated, fails: the first response object below has "done" in
    its status list and carries a sessions list, [send] resolves with it,
    and [listSessions] rejects, because "done" is not the first status. *)
Lemma C2_counterexample :
  has_done (Demo.object_of Byte.x06) /\
  Resp.sessions (Demo.object_of Byte.x06) = Some ["s1"] /\
  fst (run (codec := Demo.codec) (send_literal [("op", Str "ls-sessions")] None)
         [[data [Byte.x06]]] Demo.connected)
  = Fulfilled [Demo.object_of Byte.x06] /\
  fst (run (codec := Demo.codec) listSessions [[data [Byte.x06]]] Demo.connected)
  = Rejected (RString "No sessions found") /\
  fst (run (codec := Demo.codec) listSessions [[data [Byte.x06]]] Demo.connected)
  <> Fulfilled ["s1"].
Proof.
  split; [|repeat split; discriminate].
  exists ["session-listed"; "done"]. split; [reflexivity | right; left; reflexivity].
Qed.

(** C2, amended. When the ls-sessions request is answered, [listSessions]
    resolves with the sessions list of the first response object exactly
    when the first element of that object's status list is "done" and the
    object carries a sessions list; in every other case it rejects with
    'No sessions found'. *)
Theorem C2_listSessions_first_status `{codec : BencodeUtil}
    (remote : Remote) (w : World) (respObjs : list Response) (rw : Remote * World) :
  run (send_literal [("op", Str "ls-sessions")] None) remote w = (Fulfilled respObjs, rw) ->
  exists first others,
    respObjs = first :: others /\
    (forall ss,
        run listSessions remote w = (Fulfilled ss, rw) <->
        (exists st, Resp.status first = Some ("done" :: st)) /\
        Resp.sessions first = Some ss) /\
    (run listSessions remote w = (Rejected (RString "No sessions found"), rw) <->
     ~ ((exists st, Resp.status first = Some ("done" :: st)) /\
        is_Some (Resp.sessions first))).
Proof.
  intros H. pose proof (run_send_literal_nonempty _ _ _ _ _ _ H) as N.
  destruct respObjs as [|first others]; [congruence|]. exists first, others.
  split; [reflexivity|]. rewrite run_listSessions, H. destruct rw as [remote' w'].
  unfold listSessions_then. simpl.
  destruct (Resp.status first) as [[|s0 st]|], (Resp.sessions first) as [ss0|]; simpl;
    try (split; [intros ss; split; [discriminate | intros [[? ?] ?]; congruence]
                |split; [intros _ [[? ?] [? ?]]; congruence | reflexivity]]).
  destruct (String.eqb_spec s0 "done") as [->|Hne]; simpl.
  - split.
    + intros ss. split.
      * intros E. injection E as <-. eauto.
      * intros [_ E]. congruence.
    + split; [discriminate|]. intros Hn. exfalso. apply Hn. eauto.
  - split.
    + intros ss. split; [discriminate|]. intros [[st' E] _]. congruence.
    + split; [|reflexivity]. intros _ [[st' E] _]. congruence.
Qed.

Lemma C2_listSessions_first_status_witness :
  run (codec := Demo.codec) listSessions [[data [Byte.x02]]] Demo.connected
  = (Fulfilled ["s1"; "s2"],
     snd (run (codec := Demo.codec) (send_literal [("op", Str "ls-sessions")] None)
            [[data [Byte.x02]]] Demo.connected)).
Proof.
  destruct (C2_listSessions_first_status (codec := Demo.codec)
              [[data [Byte.x02]]] Demo.connected [Demo.object_of Byte.x02]
              (snd (run (codec := Demo.codec)
                      (send_literal [("op", Str "ls-sessions")] None)
                      [[data [Byte.x02]]] Demo.connected))
              eq_refl) as (first & others & E & Res & _).
  injection E as <- <-. apply Res. split; [exists []|]; reflexivity.
Defined.

Section CloneFacts.

Context `{codec : BencodeUtil}.

(** The request object of [clone], as it is once stripped. *)
Lemma strip_clone_message session :
  strip_undefined [("op", Str "clone"); ("session", of_optional session)]
  = match session with
    | Some s => [("op", Str "clone"); ("session", Str s)]
    | None => [("op", Str "clone")]
    end.
Proof. destruct session; reflexivity. Qed.

Lemma truthy_nonempty s : truthy (Some s) = true <-> s <> "".
Proof.
  unfold truthy. rewrite negb_true_iff. apply String.eqb_neq.
Qed.

(** The first truthy new-session value, as [clone] finds it. *)
Lemma first_truthy_cases respObjs :
  (exists pre r post s,
      respObjs = pre ++ r :: post /\
      (forall r', In r' pre -> truthy (Resp.new_session r') = false) /\
      Resp.new_session r = Some s /\ s <> "" /\
      head (List.filter truthy (map Resp.new_session respObjs)) = Some (Some s)) \/
  ((forall r, In r respObjs -> truthy (Resp.new_session r) = false) /\
   head (List.filter truthy (map Resp.new_session respObjs)) = None).
Proof.
  induction respObjs as [|r respObjs IH]; cbn [map List.filter].
  - right. split; [intros r []|reflexivity].
  - destruct (truthy (Resp.new_session r)) eqn:T.
    + left. destruct (Resp.new_session r) as [s|] eqn:E; [|discriminate].
      exists [], r, respObjs, s.
      repeat split; auto; [intros r' []|]. apply truthy_nonempty, T.
    + destruct IH as [(pre & r1 & post & s & -> & Hpre & E & N & C)|[Hall C]].
      * left. exists (r :: pre), r1, post, s. repeat split; auto.
        intros r' [<-|Hin]; auto.
      * right. split; [|exact C]. intros r' [<-|Hin]; auto.
Qed.

(** The callback of [clone] settles at once. *)
Lemma clone_then_cases respObjs :
  (exists pre r post s,
      respObjs = pre ++ r :: post /\
      (forall r', In r' pre -> truthy (Resp.new_session r') = false) /\
      Resp.new_session r = Some s /\ s <> "" /\
      clone_then respObjs = Promise_resolve s) \/
  ((forall r, In r respObjs -> truthy (Resp.new_session r) = false) /\
   clone_then respObjs = Promise_reject (RString "No session found")).
Proof.
  unfold clone_then.
  destruct (first_truthy_cases respObjs)
    as [(pre & r & post & s & E & Hpre & Er & N & ->)|[Hall ->]].
  - left. exists pre, r, post, s. repeat split; auto.
    apply truthy_nonempty in N. rewrite N. reflexivity.
  - right. auto.
Qed.

(** In a list there is one first object with a truthy new-session. *)
Lemma first_truthy_unique pre r post pre' r' post' :
  pre ++ r :: post = pre' ++ r' :: post' ->
  (forall x, In x pre -> truthy (Resp.new_session x) = false) ->
  (forall x, In x pre' -> truthy (Resp.new_session x) = false) ->
  truthy (Resp.new_session r) = true ->
  truthy (Resp.new_session r') = true ->
  r = r'.
Proof.
  revert pre'. induction pre as [|x pre IH]; intros [|x' pre'] E H H' T T';
    simpl in E; injection E as E1 E2.
  - exact E1.
  - subst x'. rewrite (H' r) in T by (left; reflexivity). discriminate.
  - subst x. rewrite (H r') in T' by (left; reflexivity). discriminate.
  - eapply IH; eauto; intros; [apply H | apply H']; right; assumption.
Qed.

Lemma run_settled {A} (p : Async A) remote w :
  (exists a, p = Promise_resolve a) \/ (exists r, p = Promise_reject r) ->
  snd (run p remote w) = (remote, w).
Proof. intros [[a ->]|[r ->]]; reflexivity. Qed.

Lemma clone_then_settled respObjs :
  (exists a, clone_then respObjs = Promise_resolve a) \/
  (exists r, clone_then respObjs = Promise_reject r).
Proof.
  destruct (clone_then_cases respObjs) as [(? & ? & ? & s & _ & _ & _ & _ & ->)|[_ ->]];
    eauto.
Qed.

Lemma run_clone session remote w :
  run (clone session) remote w =
  match run (send_literal [("op", Str "clone"); ("session", of_optional session)] None)
          remote w with
  | (Fulfilled respObjs, (remote', w')) => run (clone_then respObjs) remote' w'
  | (Rejected r, rw) => (Rejected r, rw)
  | (Pending, rw) => (Pending, rw)
  end.
Proof. apply run_then. Qed.

(** [clone] leaves the world as its [send] left it. *)
Lemma run_clone_world session remote w :
  snd (run (clone session) remote w)
  = snd (run (send_literal [("op", Str "clone"); ("session", of_optional session)] None)
           remote w).
Proof.
  rewrite run_clone.
  destruct (run (send_literal _ None) remote w) as [[|l|r] [remote' w']];
    try reflexivity.
  apply run_settled, clone_then_settled.
Qed.

End CloneFacts.

(** C3, as stated, fails: the only response object below has a
    new-session value, the empty string, and [clone] rejects. *)
Lemma C3_counterexample :
  Resp.new_session (Demo.object_of Byte.x05) = Some "" /\
  fst (run (codec := Demo.codec)
         (send_literal [("op", Str "clone"); ("session", of_optional None)] None)
         [[data [Byte.x05]]] Demo.connected)
  = Fulfilled [Demo.object_of Byte.x05] /\
  fst (run (codec := Demo.codec) (clone None) [[data [Byte.x05]]] Demo.connected)
  = Rejected (RString "No session found") /\
  fst (run (codec := Demo.codec) (clone None) [[data [Byte.x05]]] Demo.connected)
  <> Fulfilled "".
Proof. repeat split. discriminate. Qed.

(** C3, amended. The clone request carries the session key with the
    caller's session when one is given and no session key otherwise, and
    it is the only request written. When it is answered, [clone] resolves
    with the first new-session value that is not the empty string, and
    rejects with 'No session found' when no response object has such a
    value. *)
Theorem C3_clone_first_new_session `{codec : BencodeUtil}
    (session : option string) (remote : Remote) (w : World) :
  (forall c, getConnection w = Some c ->
     In (client_write (sockets w)
           (encode match session with
                   | Some s => [("op", Str "clone"); ("session", Str s)]
                   | None => [("op", Str "clone")]
                   end))
        (since w (snd (snd (run (clone session) remote w)))) /\
     forall cl buf,
       In (client_write cl buf) (since w (snd (snd (run (clone session) remote w)))) ->
       buf = encode match session with
                    | Some s => [("op", Str "clone"); ("session", Str s)]
                    | None => [("op", Str "clone")]
                    end) /\
  (forall respObjs rw,
     run (send_literal [("op", Str "clone"); ("session", of_optional session)] None)
       remote w = (Fulfilled respObjs, rw) ->
     (forall pre r post s,
         respObjs = pre ++ r :: post ->
         (forall r', In r' pre -> truthy (Resp.new_session r') = false) ->
         Resp.new_session r = Some s -> s <> "" ->
         run (clone session) remote w = (Fulfilled s, rw)) /\
     ((forall r, In r respObjs -> truthy (Resp.new_session r) = false) ->
      run (clone session) remote w = (Rejected (RString "No session found"), rw))).
Proof.
  split.
  - intros c E. rewrite run_clone_world, run_send_literal.
    destruct (await_literal [("op", Str "clone"); ("session", of_optional session)]
                None remote w c E) as (_ & new & -> & F).
    rewrite strip_clone_message. split; [right; left; reflexivity|].
    intros cl buf [Hin|[Hin|Hin]]; [discriminate | congruence |].
    rewrite forallb_forall in F. apply F in Hin. discriminate.
  - intros respObjs [remote' w'] H. rewrite run_clone, H.
    destruct (clone_then_cases respObjs)
      as [(pre & r & post & s & E & Hpre & Er & N & ->)|[Hall ->]]; simpl.
    + split.
      * intros pre' r' post' s' E' Hpre' Er' N'. repeat f_equal.
        assert (r = r') as <-; [|congruence].
        apply (first_truthy_unique pre r post pre' r' post'); auto;
          [congruence | rewrite Er | rewrite Er']; apply truthy_nonempty; assumption.
      * intros Hall. exfalso. subst respObjs.
        specialize (Hall r (in_elt r pre post)). rewrite Er in Hall. simpl in Hall.
        apply negb_false_iff, String.eqb_eq in Hall. contradiction.
    + split; [|reflexivity].
      intros pre r post s -> _ Er N. exfalso.
      specialize (Hall r (in_elt r pre post)). rewrite Er in Hall. simpl in Hall.
      apply negb_false_iff, String.eqb_eq in Hall. contradiction.
Qed.

Lemma C3_clone_first_new_session_witness :
  fst (run (codec := Demo.codec) (clone (Some "p"))
         [[data [Byte.x00; Byte.x03; Byte.x04]]] Demo.connected)
  = Fulfilled "a".
Proof.
  destruct (C3_clone_first_new_session (codec := Demo.codec) (Some "p")
              [[data [Byte.x00; Byte.x03; Byte.x04]]] Demo.connected) as [_ H].
  destruct (H [Resp.empty; Demo.object_of Byte.x03; Demo.object_of Byte.x04]
              (snd (run (codec := Demo.codec)
                      (send_literal [("op", Str "clone"); ("session", Str "p")] None)
                      [[data [Byte.x00; Byte.x03; Byte.x04]]] Demo.connected))
              eq_refl) as [R _].
  rewrite (R [Resp.empty] (Demo.object_of Byte.x03) [Demo.object_of Byte.x04] "a"
             eq_refl).
  - reflexivity.
  - intros r' [<-|[]]. reflexivity.
  - reflexivity.
  - discriminate.
Defined.

(** C8, as stated, fails: with the empty string as namespace argument the
    op is "test-all", and the empty namespace is sent along. *)
Lemma C8_counterexample :
  heap (snd (snd (run (codec := Demo.codec) (runTests (Some "")) [] Demo.connected)))
  = [[("op", Str "test-all"); ("ns", Str ""); ("load?", Num 1)]] /\
  JsObj.get "op" [("op", Str "test-all"); ("ns", Str ""); ("load?", Num 1)]
  <> Str "test".
Proof. split; [reflexivity | discriminate]. Qed.

(** C8, amended. The op of the request object of [runTests] is "test" when
    the namespace argument is a non-empty string and "test-all" when it is
    absent or empty; the object always has ['load?'] set to 1, and it is
    what gets written, less an absent namespace. *)
Theorem C8_runTests_op `{codec : BencodeUtil}
    (namespace : option string) (remote : Remote) (w : World) :
  exists message,
    heap (snd (snd (run (runTests namespace) remote w))) !! length (heap w)
    = Some message /\
    JsObj.get "op" message
    = Str match namespace with
          | None => "test-all"
          | Some "" => "test-all"
          | Some _ => "test"
          end /\
    JsObj.get "ns" message = of_optional namespace /\
    JsObj.get "load?" message = Num 1 /\
    (forall cl buf,
        In (client_write cl buf) (since w (snd (snd (run (runTests namespace) remote w)))) ->
        buf = encode message) /\
    (forall c, getConnection w = Some c ->
        JsObj.has "ns" message = bool_decide (is_Some namespace) /\
        In (client_write (sockets w) (encode message))
           (since w (snd (snd (run (runTests namespace) remote w))))).
Proof.
  unfold runTests. cbn [run]. rewrite run_send.
  set (o := [("op", Str (if truthy namespace then "test" else "test-all"));
             ("ns", of_optional namespace); ("load?", Num 1)]).
  change (fst (alloc o w)) with (length (heap w)).
  assert (Op : JsObj.get "op" o
               = Str match namespace with
                     | None => "test-all"
                     | Some "" => "test-all"
                     | Some _ => "test"
                     end)
    by (destruct namespace as [[|]|]; reflexivity).
  destruct (getConnection w) as [c|] eqn:E.
  - destruct (await_literal o None remote w c E) as (H & new & S & F).
    exists (strip_undefined o). rewrite H, S.
    rewrite lookup_app_r, Nat.sub_diag by lia.
    rewrite !get_strip_undefined, has_strip_undefined.
    split; [reflexivity|]. split; [exact Op|]. split; [reflexivity|].
    split; [reflexivity|]. split.
    + intros cl buf [Hin|[Hin|Hin]]; [discriminate | congruence |].
      rewrite forallb_forall in F. apply F in Hin. discriminate.
    + intros c' _. split; [destruct namespace; reflexivity|].
      right. left. reflexivity.
  - rewrite (await_send_no_connection _ None remote (snd (alloc o w)) E). cbn [snd].
    exists o. rewrite lookup_alloc.
    split; [reflexivity|]. split; [exact Op|]. split; [reflexivity|].
    split; [reflexivity|]. split.
    + intros cl buf Hin. unfold since in Hin. simpl in Hin.
      rewrite drop_all in Hin. destruct Hin.
    + discriminate.
Qed.

Lemma C8_runTests_op_witness :
  In (client_write 0 (@encode Demo.codec
                        [("op", Str "test"); ("ns", Str "my.ns"); ("load?", Num 1)]))
     (trace (snd (snd (run (codec := Demo.codec) (runTests (Some "my.ns")) []
                         Demo.connected)))).
Proof.
  destruct (C8_runTests_op (codec := Demo.codec) (Some "my.ns") [] Demo.connected)
    as (message & H & _ & _ & _ & _ & W).
  injection H as <-. apply (W Demo.localhost eq_refl).
Defined.

(** C10, as stated, fails: without a connection [send] returns before the
    stripping, and the caller's object keeps its [undefined] key. Here
    the request object of [runTests] with no namespace still has [ns]. *)
Lemma C10_counterexample :
  heap (snd (snd (run (codec := Demo.codec) (runTests None) [] Demo.disconnected)))
  = [[("op", Str "test-all"); ("ns", Undefined); ("load?", Num 1)]] /\
  JsObj.has "ns" [("op", Str "test-all"); ("ns", Undefined); ("load?", Num 1)] = true.
Proof. split; reflexivity. Qed.

(** C10, amended. When [send] has a connection, given or current, the
    object the caller passed is changed in place: after the call, whatever
    the socket delivers, it is the object without the keys that read as
    [undefined], every other key being kept with its value, and no other
    object is touched. When [send] has no connection it is rejected
    before the stripping, and the object, like every other, is left as it
    was. *)
Theorem C10_message_stripped_in_place `{codec : BencodeUtil}
    (msg : ref) (connection : option CljConnectionInformation)
    (c : CljConnectionInformation) (events : list SocketEvent) (w : World)
    (o : JsObject) :
  heap w !! msg = Some o ->
  (connection_or_current connection w = Some c ->
   heap (snd (send_call msg connection events w)) !! msg = Some (strip_undefined o) /\
   (forall key,
       JsObj.has key (strip_undefined o) = negb (is_undefined (JsObj.get key o)) /\
       JsObj.get key (strip_undefined o) = JsObj.get key o) /\
   (forall r, r <> msg ->
       heap (snd (send_call msg connection events w)) !! r = heap w !! r)) /\
  (connection_or_current connection w = None ->
   promise_of (fst (send_call msg connection events w))
   = Rejected (RString "No connection found.") /\
   heap (snd (send_call msg connection events w)) !! msg = Some o /\
   heap (snd (send_call msg connection events w)) = heap w).
Proof.
  intros Ho. split.
  - intros E. destruct (send_call_world msg connection events w c E) as (H & _).
    rewrite H. split; [apply started_grows_heap, Ho|]. split.
    + intros key. split; [apply has_strip_undefined | apply get_strip_undefined].
    + intros r Hr. apply started_other, Hr.
  - intros E. rewrite (send_call_no_connection _ _ _ _ E). simpl. auto.
Qed.

(** The request object of [runTests] with no namespace loses its [ns]
    key. *)
Lemma C10_message_stripped_in_place_witness :
  heap (snd (send_call (codec := Demo.codec) 0 None [data [Byte.x01]]
               (snd (alloc [("op", Str "test-all"); ("ns", Undefined); ("load?", Num 1)]
                       Demo.connected)))) !! 0
  = Some [("op", Str "test-all"); ("load?", Num 1)].
Proof.
  destruct (C10_message_stripped_in_place (codec := Demo.codec) 0 None Demo.localhost
              [data [Byte.x01]]
              (snd (alloc [("op", Str "test-all"); ("ns", Undefined); ("load?", Num 1)]
                      Demo.connected))
              [("op", Str "test-all"); ("ns", Undefined); ("load?", Num 1)] eq_refl)
    as (H & _).
  exact (proj1 (H eq_refl)).
Defined.

Section EvaluateFacts.

Context `{codec : BencodeUtil}.

(** What a fulfilled [clone] leaves behind. *)
Lemma run_clone_fulfilled session remote w sid remote' w' :
  run (clone session) remote w = (Fulfilled sid, (remote', w')) ->
  exists c,
    getConnection w = Some c /\
    remote' = tl remote /\
    heap w' = heap w ++ [match session with
                         | Some s => [("op", Str "clone"); ("session", Str s)]
                         | None => [("op", Str "clone")]
                         end] /\
    current w' = current w /\
    sockets w' = S (sockets w) /\
    trace w'
    = trace w ++ [net_createConnection (sockets w) (port c) (host c);
                  client_write (sockets w)
                    (encode match session with
                            | Some s => [("op", Str "clone"); ("session", Str s)]
                            | None => [("op", Str "clone")]
                            end);
                  client_end (sockets w);
                  client_removeAllListeners (sockets w)].
Proof.
  rewrite run_clone, run_send_literal.
  destruct (await_send _ None remote _) as [[|l|r] [remote1 w1]] eqn:A;
    try discriminate.
  intros H.
  assert (S : (remote1, w1) = (remote', w')).
  { rewrite <- (run_settled (clone_then l) remote1 w1 (clone_then_settled l)).
    rewrite H. reflexivity. }
  injection S as -> ->.
  apply await_literal_fulfilled in A as (c & E & R & _ & Hh & Hc & Hs & Ht).
  rewrite strip_clone_message in Hh, Ht. exists c. auto 10.
Qed.

(** [clone], then a request built from the new session id: the request
    objects and the effects of the whole chain. *)
Lemma run_clone_then_send (mk : string -> JsObject) session remote w sid rw :
  (forall s, strip_undefined (mk s) = mk s) ->
  run (clone session) remote w = (Fulfilled sid, rw) ->
  let w' := snd (snd (run (then_ (clone session) (fun session_id =>
                             new_object (mk session_id) (fun msg => send msg None)))
                        remote w)) in
  exists c,
    getConnection w = Some c /\
    heap w' = heap w ++ [match session with
                         | Some s => [("op", Str "clone"); ("session", Str s)]
                         | None => [("op", Str "clone")]
                         end; mk sid] /\
    exists new,
      since w w'
      = [net_createConnection (sockets w) (port c) (host c);
         client_write (sockets w)
           (encode match session with
                   | Some s => [("op", Str "clone"); ("session", Str s)]
                   | None => [("op", Str "clone")]
                   end);
         client_end (sockets w);
         client_removeAllListeners (sockets w);
         net_createConnection (S (sockets w)) (port c) (host c);
         client_write (S (sockets w)) (encode (mk sid))] ++ new /\
      forallb handler_effect new = true.
Proof.
  intros Hmk H w'. subst w'. rewrite run_then, H. destruct rw as [remote1 w1].
  apply run_clone_fulfilled in H as (c & E & _ & Hh & Hc & Hs & Ht).
  exists c. split; [exact E|].
  change (new_object (mk sid) (fun msg => send msg None))
    with (send_literal (mk sid) None).
  rewrite run_send_literal.
  assert (E1 : connection_or_current None w1 = Some c)
    by (unfold connection_or_current, getConnection in *; congruence).
  destruct (await_literal (mk sid) None remote1 w1 c E1) as (Hh' & _).
  destruct (await_literal_trace (mk sid) None remote1 w1 c E1) as (new & T & F).
  rewrite Hmk in *. split.
  - rewrite Hh', Hh, <- app_assoc. reflexivity.
  - exists new. split; [|exact F]. apply since_app. rewrite T, Ht, Hs.
    rewrite <- !app_assoc. reflexivity.
Qed.

End EvaluateFacts.

(** C7, as stated, fails: the session id of the eval request is the one
    the remote returned, and nothing makes it differ from the caller's
    session or from the id of an earlier clone. Below, the remote answers
    every clone with new-session "b": two successive calls of [evaluate]
    tag their eval requests with the same id, and a caller who passes "b"
    has the eval request tagged with "b". *)
Lemma C7_counterexample :
  heap (snd (snd (run (codec := Demo.codec)
                    (then_ (evaluate "(+ 1 1)" None) (fun _ => evaluate "(+ 1 1)" None))
                    [[data [Byte.x04]]; [data [Byte.x01]];
                     [data [Byte.x04]]; [data [Byte.x01]]]
                    Demo.connected)))
  = [[("op", Str "clone")];
     [("op", Str "eval"); ("code", Str "(+ 1 1)"); ("session", Str "b")];
     [("op", Str "clone")];
     [("op", Str "eval"); ("code", Str "(+ 1 1)"); ("session", Str "b")]] /\
  heap (snd (snd (run (codec := Demo.codec) (evaluate "(+ 1 1)" (Some "b"))
                    [[data [Byte.x04]]; [data [Byte.x01]]] Demo.connected)))
  = [[("op", Str "clone"); ("session", Str "b")];
     [("op", Str "eval"); ("code", Str "(+ 1 1)"); ("session", Str "b")]].
Proof. split; reflexivity. Qed.

(** C7, amended. Whatever session the caller passes, [evaluate] and
    [evaluateFile] first send a clone request with that session and, once
    the clone has resolved with a session id, send their eval or load-file
    request tagged with that id, on a socket of its own; these are the
    only two requests. Every call does its own clone: of two successive
    calls of [evaluate], each tags its eval request with the id its own
    clone resolved with. *)
Theorem C7_eval_in_cloned_session `{codec : BencodeUtil} :
  (forall code session remote w sid rw,
      run (clone session) remote w = (Fulfilled sid, rw) ->
      let w' := snd (snd (run (evaluate code session) remote w)) in
      exists c,
        getConnection w = Some c /\
        heap w' = heap w ++ [clone_request session; eval_request code sid] /\
        exists new,
          since w w'
          = [net_createConnection (sockets w) (port c) (host c);
             client_write (sockets w) (encode (clone_request session));
             client_end (sockets w);
             client_removeAllListeners (sockets w);
             net_createConnection (S (sockets w)) (port c) (host c);
             client_write (S (sockets w)) (encode (eval_request code sid))] ++ new /\
          forallb handler_effect new = true) /\
  (forall code filepath session remote w sid rw,
      run (clone session) remote w = (Fulfilled sid, rw) ->
      let w' := snd (snd (run (evaluateFile code filepath session) remote w)) in
      exists c,
        getConnection w = Some c /\
        heap w' = heap w ++ [clone_request session; load_file_request code filepath sid] /\
        exists new,
          since w w'
          = [net_createConnection (sockets w) (port c) (host c);
             client_write (sockets w) (encode (clone_request session));
             client_end (sockets w);
             client_removeAllListeners (sockets w);
             net_createConnection (S (sockets w)) (port c) (host c);
             client_write (S (sockets w))
               (encode (load_file_request code filepath sid))] ++ new /\
          forallb handler_effect new = true) /\
  (forall code1 session1 code2 session2 remote w sid1 rw1 respObjs remote1 w1 sid2 rw2,
      run (clone session1) remote w = (Fulfilled sid1, rw1) ->
      run (evaluate code1 session1) remote w = (Fulfilled respObjs, (remote1, w1)) ->
      run (clone session2) remote1 w1 = (Fulfilled sid2, rw2) ->
      heap (snd (snd (run (then_ (evaluate code1 session1)
                             (fun _ => evaluate code2 session2)) remote w)))
      = heap w ++ [clone_request session1; eval_request code1 sid1;
                   clone_request session2; eval_request code2 sid2]).
Proof.
  assert (A : forall code session remote w sid rw,
             run (clone session) remote w = (Fulfilled sid, rw) ->
             exists c,
               getConnection w = Some c /\
               heap (snd (snd (run (evaluate code session) remote w)))
               = heap w ++ [clone_request session; eval_request code sid] /\
               exists new,
                 since w (snd (snd (run (evaluate code session) remote w)))
                 = [net_createConnection (sockets w) (port c) (host c);
                    client_write (sockets w) (encode (clone_request session));
                    client_end (sockets w);
                    client_removeAllListeners (sockets w);
                    net_createConnection (S (sockets w)) (port c) (host c);
                    client_write (S (sockets w)) (encode (eval_request code sid))]
                   ++ new /\
                 forallb handler_effect new = true).
  { intros code session remote w sid rw H.
    apply (run_clone_then_send (eval_request code) session remote w sid rw);
      [reflexivity | exact H]. }
  split; [exact A|]. split.
  - intros code filepath session remote w sid rw H.
    apply (run_clone_then_send (load_file_request code filepath) session remote w sid rw);
      [reflexivity | exact H].
  - intros code1 session1 code2 session2 remote w sid1 rw1 respObjs remote1 w1 sid2 rw2
      H1 He H2.
    rewrite run_then, He.
    destruct (A code2 session2 remote1 w1 sid2 rw2 H2) as (_ & _ & -> & _).
    destruct (A code1 session1 remote w sid1 rw1 H1) as (_ & _ & Hh & _).
    rewrite He in Hh. simpl in Hh. rewrite Hh, <- app_assoc. reflexivity.
Qed.

(** Two successive calls: the remote answers the first clone with
    new-session "a" and the second with "b". *)
Lemma C7_eval_in_cloned_session_witness :
  heap (snd (snd (run (codec := Demo.codec)
                    (then_ (evaluate "(+ 1 1)" None) (fun _ => evaluate "(+ 1 1)" None))
                    [[data [Byte.x03; Byte.x01]]; [data [Byte.x01]];
                     [data [Byte.x04]]; [data [Byte.x01]]]
                    Demo.connected)))
  = [[("op", Str "clone")]; eval_request "(+ 1 1)" "a";
     [("op", Str "clone")]; eval_request "(+ 1 1)" "b"].
Proof.
  destruct (C7_eval_in_cloned_session (codec := Demo.codec)) as (_ & _ & B).
  refine (B "(+ 1 1)" None "(+ 1 1)" None
            [[data [Byte.x03; Byte.x01]]; [data [Byte.x01]];
             [data [Byte.x04]]; [data [Byte.x01]]]
            Demo.connected "a" _ _ _ _ "b" _ eq_refl eq_refl eq_refl).
Defined.

Section LookupFacts.

Context `{codec : BencodeUtil}.

(** [send(msg).then(respObjs => respObjs[0])] on an object literal
    resolves with an object, not with [undefined]. *)
Lemma run_first_response o remote w r rw :
  run (new_object o (fun msg =>
         then_ (send msg None) (fun respObjs => Promise_resolve (first_response respObjs))))
    remote w = (Fulfilled r, rw) ->
  is_Some r.
Proof.
  cbn [run]. rewrite run_then, run_send.
  change (fst (alloc o w)) with (length (heap w)).
  destruct (await_send _ None remote _) as [[|l|e] [remote' w']] eqn:A;
    try discriminate.
  apply await_literal_fulfilled in A as (_ & _ & _ & N & _).
  simpl. intros H. injection H as <- _.
  destruct l; [congruence | simpl; eauto].
Qed.

End LookupFacts.

(** C9. A fulfilled [send] promise never holds an empty list: its last
    object carries "done" in its status list. So reading the first element
    finds an object: [complete] and [info] never resolve with [undefined],
    and [listSessions] never fails on reading [status] of [undefined]. *)
Theorem C9_resolved_nonempty_ends_done `{codec : BencodeUtil} :
  (forall msg connection events w l,
      promise_of (fst (send_call msg connection events w)) = Fulfilled l ->
      l <> [] /\
      (exists init lastObj, l = init ++ [lastObj] /\ has_done lastObj) /\
      is_Some (first_response l)) /\
  (forall symbol ns remote w r rw,
      run (complete symbol ns) remote w = (Fulfilled r, rw) -> is_Some r) /\
  (forall symbol ns session remote w r rw,
      run (info symbol ns session) remote w = (Fulfilled r, rw) -> is_Some r) /\
  (forall remote w rw, run listSessions remote w <> (Rejected RTypeError, rw)).
Proof.
  split; [|split; [|split]].
  - intros msg connection events w l H.
    apply send_call_fulfilled_last in H as (init & r & -> & D).
    split; [destruct init; discriminate|]. split; [eauto|].
    destruct init; simpl; eauto.
  - intros symbol ns remote w r rw. apply run_first_response.
  - intros symbol ns session remote w r rw. apply run_first_response.
  - intros remote w rw. rewrite run_listSessions, run_send_literal.
    destruct (await_send _ None remote _) as [[|l|e] [remote' w']] eqn:A.
    + discriminate.
    + apply await_literal_fulfilled in A as (_ & _ & _ & N & _).
      destruct l as [|first others]; [congruence|].
      unfold listSessions_then. simpl.
      destruct (Resp.status first) as [[|s0 st]|], (Resp.sessions first);
        simpl; try discriminate.
      destruct (String.eqb s0 "done"); discriminate.
    + intros H. injection H as -> _.
      apply await_send_rejected in A as [A|[e A]]; discriminate.
Qed.

Lemma C9_resolved_nonempty_ends_done_witness :
  is_Some (first_response [Resp.empty; Demo.done]).
Proof.
  destruct (C9_resolved_nonempty_ends_done (codec := Demo.codec)) as (S & _).
  apply (S 0 None [data [Byte.x00]; data [Byte.x01]]
           (snd (alloc [("op", Str "eval")] Demo.connected))).
  reflexivity.
Defined.


(** ** Worked examples *)

(** A single completion object resolves the call with exactly that
    object. *)
Example completion_single :
  promise_of
    (fst (send_call (codec := Demo.codec) 0 None [data [Byte.x01]]
            (snd (alloc [("op", Str "eval")] Demo.connected))))
  = Fulfilled [Demo.done].
Proof. reflexivity. Qed.

(** Objects arriving in several chunks are collected in order; what
    comes after the completion object is dropped. *)
Example completion_across_chunks :
  promise_of
    (fst (send_call (codec := Demo.codec) 0 None
            [data [Byte.x00]; data [Byte.x03; Byte.x01; Byte.x03]; data [Byte.x01]]
            (snd (alloc [("op", Str "eval")] Demo.connected))))
  = Fulfilled [Resp.empty; Demo.object_of Byte.x03; Demo.done].
Proof. reflexivity. Qed.

(** Without a completion object the promise stays pending. *)
Example no_completion_pending :
  promise_of
    (fst (send_call (codec := Demo.codec) 0 None [data [Byte.x00; Byte.x03]]
            (snd (alloc [("op", Str "eval")] Demo.connected))))
  = Pending.
Proof. reflexivity. Qed.

(** [listSessions] on [{status: ["done"], sessions: ["s1", "s2"]}] and on
    [{status: ["done"]}]. *)
Example listSessions_resolves :
  fst (run (codec := Demo.codec) listSessions [[data [Byte.x02]]] Demo.connected)
  = Fulfilled ["s1"; "s2"].
Proof. reflexivity. Qed.

Example listSessions_without_sessions :
  fst (run (codec := Demo.codec) listSessions [[data [Byte.x01]]] Demo.connected)
  = Rejected (RString "No sessions found").
Proof. reflexivity. Qed.

(** A refused connection: the promise is rejected, one message is shown
    and the shared connection is gone. *)
Example connection_refused :
  let result := run (codec := Demo.codec) (close None) [[error Demo.econnrefused]]
                  Demo.connected in
  fst result = Rejected (RError Demo.econnrefused) /\
  trace (snd (snd result))
  = [net_createConnection 0 7888 "localhost";
     client_write 0 (@encode Demo.codec [("op", Str "close")]);
     client_end 0; client_removeAllListeners 0;
     showErrorMessage "Connection refused."; cljConnection_disconnect] /\
  getConnection (snd (snd result)) = None.
Proof. repeat split. Qed.

(** [test] resolves with an empty list when the clone answer has a
    new-session key. *)
Example test_connection :
  fst (run (codec := Demo.codec) (test Demo.localhost) [[data [Byte.x04]]]
         Demo.disconnected)
  = Fulfilled [].
Proof. reflexivity. Qed.

(** * Further properties *)

(** ** The outcome of a call *)

Section OutcomeFacts.

Context `{codec : BencodeUtil}.

Lemma clean_app_eq l l' : clean (l ++ l') = clean l && clean l'.
Proof. unfold clean. apply forallb_app. Qed.

(** The promise of a call in flight after any events. *)
Lemma deliver_outcome events c w :
  in_flight c ->
  promise (fst (deliver events (c, w)))
  = if clean (decoded_stream (nreplResp c) events) then
      match first_error events with
      | Some e => Rejected (RError e)
      | None => Pending
      end
    else Fulfilled (respObjects c ++ through_done (decoded_stream (nreplResp c) events)).
Proof.
  revert c. induction events as [|ev events IH]; intros c I.
  - destruct I as (_ & P & _). simpl. exact P.
  - rewrite deliver_cons. pose proof I as (L & P & F).
    unfold dispatch. simpl. rewrite L.
    destruct ev as [d|e].
    + destruct (on_data_in_flight d c w I)
        as [[Fd E]|(pre & r & post & Ed & Fp & D & E)]; rewrite E.
      * rewrite IH by (repeat split; simpl; apply clean_app; assumption).
        simpl. rewrite clean_app_eq, Fd. simpl.
        rewrite through_done_app_clean, app_assoc by exact Fd. reflexivity.
      * rewrite deliver_detached by reflexivity. simpl.
        rewrite Ed, !clean_app_eq. simpl. rewrite D, andb_false_r. simpl.
        rewrite through_done_app_done by assumption. reflexivity.
    + rewrite (on_error_in_flight e c w I), deliver_detached by reflexivity.
      reflexivity.
Qed.

(** The world after any events on a call in flight: untouched while the
    promise is pending, else with the effects that wound the call up. *)
Lemma deliver_world events c w :
  in_flight c ->
  trace (snd (deliver events (c, w)))
  = trace w ++ closing (client c) (promise (fst (deliver events (c, w)))) /\
  current (snd (deliver events (c, w)))
  = (if rejected_refused (promise (fst (deliver events (c, w))))
     then None else current w).
Proof.
  revert c. induction events as [|ev events IH]; intros c I.
  - destruct I as (_ & P & _). simpl. rewrite P. simpl.
    split; [symmetry; apply app_nil_r | reflexivity].
  - rewrite deliver_cons. pose proof I as (L & P & F).
    unfold dispatch. simpl. rewrite L.
    destruct ev as [d|e].
    + destruct (on_data_in_flight d c w I)
        as [[Fd E]|(pre & r & post & Ed & Fp & D & E)]; rewrite E.
      * apply (IH {| client := client c; listening := true;
                     nreplResp := rest (decodeObjects (nreplResp c ++ d));
                     respObjects := respObjects c
                                      ++ decodedObjects (decodeObjects (nreplResp c ++ d));
                     promise := Pending |}).
        repeat split. simpl. apply clean_app; assumption.
      * rewrite deliver_detached by reflexivity. simpl.
        rewrite <- app_assoc. split; reflexivity.
    + rewrite (on_error_in_flight e c w I), deliver_detached by reflexivity.
      simpl. destruct (refused e); simpl; rewrite <- ?app_assoc; split; reflexivity.
Qed.

Lemma send_call_outcome msg connection c events w :
  connection_or_current connection w = Some c ->
  promise_of (fst (send_call msg connection events w))
  = outcome (decoded_stream [] events) (first_error events).
Proof.
  intros E. rewrite (send_call_connected _ _ _ _ _ E). simpl.
  rewrite deliver_outcome by apply fresh_call_in_flight. reflexivity.
Qed.

End OutcomeFacts.

(** X1. With a connection, the promise of [send] is decided by what the
    socket delivers before its first error: it is fulfilled, with the
    decoded objects up to the first completion object, as soon as a
    completion object is decoded; otherwise it is rejected with the first
    error; otherwise it is still pending. *)
Theorem X1_send_outcome `{codec : BencodeUtil}
    (msg : ref) (connection : option CljConnectionInformation)
    (c : CljConnectionInformation) (events : list SocketEvent) (w : World) :
  connection_or_current connection w = Some c ->
  promise_of (fst (send_call msg connection events w))
  = outcome (decoded_stream [] events) (first_error events).
Proof. apply send_call_outcome. Qed.

(** A completion object, then an error: the promise stays fulfilled. *)
Lemma X1_send_outcome_witness :
  promise_of
    (fst (send_call (codec := Demo.codec) 0 None
            [data [Byte.x00; Byte.x01]; error Demo.econnrefused]
            (snd (alloc [("op", Str "eval")] Demo.connected))))
  = Fulfilled [Resp.empty; Demo.done].
Proof.
  rewrite (X1_send_outcome (codec := Demo.codec) 0 None Demo.localhost
             [data [Byte.x00; Byte.x01]; error Demo.econnrefused]
             (snd (alloc [("op", Str "eval")] Demo.connected)) eq_refl).
  reflexivity.
Defined.

(** X2. A settled promise is settled for good: once the promise of a call
    is fulfilled or rejected, whatever the socket delivers afterwards
    changes neither the promise nor anything else. *)
Theorem X2_send_settles_once `{codec : BencodeUtil}
    (msg : ref) (connection : option CljConnectionInformation)
    (events more : list SocketEvent) (w : World) :
  promise_of (fst (send_call msg connection events w)) <> Pending ->
  send_call msg connection (events ++ more) w = send_call msg connection events w.
Proof.
  intros H. destruct (connection_or_current connection w) as [c|] eqn:E.
  - rewrite !(send_call_connected _ _ _ _ _ E) in *. simpl in H.
    rewrite deliver_app.
    destruct (deliver_state events (fresh_call w) (started msg c w)
                (or_introl (fresh_call_in_flight w))) as ([(_ & P & _)|(L & _)] & _ & _);
      [contradiction|].
    destruct (deliver events (fresh_call w, started msg c w)) as [c1 w1].
    simpl in L. rewrite (deliver_detached more c1 w1 L). reflexivity.
  - rewrite !(send_call_no_connection _ _ _ _ E). reflexivity.
Qed.

Lemma X2_send_settles_once_witness :
  send_call (codec := Demo.codec) 0 None ([data [Byte.x01]] ++ [data [Byte.x03]; error Demo.econnrefused])
    (snd (alloc [("op", Str "eval")] Demo.connected))
  = send_call (codec := Demo.codec) 0 None [data [Byte.x01]]
      (snd (alloc [("op", Str "eval")] Demo.connected)).
Proof.
  apply (X2_send_settles_once (codec := Demo.codec)). discriminate.
Defined.

(** X3. With a connection, the effects of a whole call are: the socket is
    created, the request is written, and, once the promise is settled and
    not before, the socket is ended and its listeners are removed, each
    once; a connection-refused rejection adds one error message and one
    disconnect. A pending call has only created its socket and written. *)
Theorem X3_send_effects `{codec : BencodeUtil}
    (msg : ref) (connection : option CljConnectionInformation)
    (c : CljConnectionInformation) (events : list SocketEvent) (w : World) :
  connection_or_current connection w = Some c ->
  since w (snd (send_call msg connection events w))
  = [net_createConnection (sockets w) (port c) (host c);
     client_write (sockets w) (encode (strip_undefined (default [] (heap w !! msg))))]
    ++ closing (sockets w) (promise_of (fst (send_call msg connection events w))).
Proof.
  intros E. rewrite (send_call_connected _ _ _ _ _ E). simpl.
  apply since_app.
  destruct (deliver_world events (fresh_call w) (started msg c w)
              (fresh_call_in_flight w)) as (T & _).
  rewrite T. simpl. rewrite <- !app_assoc. reflexivity.
Qed.

Lemma X3_send_effects_witness :
  since (snd (alloc [("op", Str "eval")] Demo.connected))
    (snd (send_call (codec := Demo.codec) 0 None [data [Byte.x00]]
            (snd (alloc [("op", Str "eval")] Demo.connected))))
  = [net_createConnection 0 7888 "localhost";
     client_write 0 (@encode Demo.codec [("op", Str "eval")])].
Proof.
  rewrite (X3_send_effects (codec := Demo.codec) 0 None Demo.localhost [data [Byte.x00]]
             (snd (alloc [("op", Str "eval")] Demo.connected)) eq_refl).
  reflexivity.
Defined.

(** X4. What a call leaves alone: it adds and removes no object and
    changes none but the message; it creates one socket when it has a
    connection and none otherwise; and the current connection is changed
    only by a connection-refused rejection. *)
Theorem X4_send_frame `{codec : BencodeUtil}
    (msg : ref) (connection : option CljConnectionInformation)
    (events : list SocketEvent) (w : World) :
  length (heap (snd (send_call msg connection events w))) = length (heap w) /\
  (forall r, r <> msg ->
     heap (snd (send_call msg connection events w)) !! r = heap w !! r) /\
  sockets (snd (send_call msg connection events w))
  = match connection_or_current connection w with
    | Some _ => S (sockets w)
    | None => sockets w
    end /\
  current (snd (send_call msg connection events w))
  = (if rejected_refused (promise_of (fst (send_call msg connection events w)))
     then None else current w).
Proof.
  destruct (connection_or_current connection w) as [c|] eqn:E.
  - destruct (send_call_world msg connection events w c E) as (H & S & _).
    rewrite H, S. split; [apply length_insert|]. split; [|split; [reflexivity|]].
    + intros r Hr. apply started_other, Hr.
    + rewrite (send_call_connected _ _ _ _ _ E). simpl.
      apply (deliver_world events (fresh_call w) (started msg c w)
               (fresh_call_in_flight w)).
  - rewrite (send_call_no_connection _ _ _ _ E). simpl. auto.
Qed.

Section StreamingFacts.

Context `{codec : BencodeUtil}.

(** Fed in pieces, a streaming decoder yields the objects of the whole. *)
Lemma decoded_stream_chunks (chunks : list Buffer) (buf : Buffer) :
  streaming ->
  decodedObjects (decodeObjects buf)
    ++ decoded_stream (rest (decodeObjects buf)) (map data chunks)
  = decodedObjects (decodeObjects (buf ++ concat chunks)).
Proof.
  intros (_ & _ & S). revert buf. induction chunks as [|d chunks IH]; intros buf; simpl.
  - rewrite !app_nil_r. reflexivity.
  - destruct (S buf d) as (So & Sr). rewrite app_assoc, <- So, <- Sr, IH, app_assoc.
    reflexivity.
Qed.

Lemma first_error_data (chunks : list Buffer) : first_error (map data chunks) = None.
Proof. induction chunks; simpl; auto. Qed.

End StreamingFacts.

(** X5. With a decoder that can be fed in pieces, the promise of a call
    does not depend on how the socket cuts the bytes into chunks: it is
    the same as if all the bytes had come in one chunk. *)
Theorem X5_send_chunking `{codec : BencodeUtil}
    (msg : ref) (connection : option CljConnectionInformation)
    (chunks : list Buffer) (w : World) :
  streaming ->
  promise_of (fst (send_call msg connection (map data chunks) w))
  = promise_of (fst (send_call msg connection [data (concat chunks)] w)).
Proof.
  intros S. destruct (connection_or_current connection w) as [c|] eqn:E.
  - rewrite !(send_call_outcome _ _ c _ _ E), first_error_data.
    pose proof (decoded_stream_chunks chunks [] S) as H.
    destruct S as (S0 & S1 & _). rewrite S0, S1 in H. simpl in H.
    rewrite H. simpl. rewrite app_nil_r. reflexivity.
  - rewrite !(send_call_no_connection _ _ _ _ E). reflexivity.
Qed.

Lemma X5_send_chunking_witness :
  promise_of
    (fst (send_call (codec := Demo.codec) 0 None
            (map data [[Byte.x00]; [Byte.x03; Byte.x01]; [Byte.x00]])
            (snd (alloc [("op", Str "eval")] Demo.connected))))
  = promise_of
      (fst (send_call (codec := Demo.codec) 0 None
              [data (concat [[Byte.x00]; [Byte.x03; Byte.x01]; [Byte.x00]])]
              (snd (alloc [("op", Str "eval")] Demo.connected)))).
Proof.
  apply (X5_send_chunking (codec := Demo.codec)).
  split; [reflexivity|]. split; [reflexivity|].
  intros buf d. simpl. rewrite map_app. split; reflexivity.
Defined.

(** ** The helpers of [send] *)

(** X6. The stripping of line 159 is idempotent, and it leaves an object
    as it is exactly when none of its keys reads as [undefined]. *)
Theorem X6_strip_undefined_idempotent (o : JsObject) :
  strip_undefined (strip_undefined o) = strip_undefined o /\
  (strip_undefined o = o <->
   forall key, In key (JsObj.keys o) -> JsObj.get key o <> Undefined).
Proof.
  split.
  - rewrite (strip_undefined_filter (strip_undefined o)).
    rewrite (filter_ext _ (fun kv => negb (is_undefined (JsObj.get (fst kv) o))))
      by (intros kv; rewrite get_strip_undefined; reflexivity).
    rewrite strip_undefined_filter, filter_twice.
    apply filter_ext. intros kv. apply andb_diag.
  - rewrite strip_undefined_filter. split.
    + intros E key Hin U.
      apply in_map_iff in Hin as ([k v] & <- & Hin). simpl in U.
      rewrite <- E in Hin. apply filter_In in Hin as (_ & Hk). simpl in Hk.
      rewrite U in Hk. discriminate.
    + intros H. apply filter_all_true. intros [k v] Hin. simpl.
      specialize (H k). destruct (JsObj.get k o); try reflexivity.
      exfalso. apply H; [|reflexivity].
      apply in_map_iff. exists (k, v). auto.
Qed.

(** X7. [isLastNreplObject] looks at the last object only: it holds
    exactly when the list is not empty and the status list of its last
    object contains "done". An empty list, a last object without status
    or with an empty status list give false, whatever comes before. *)
Theorem X7_isLastNreplObject_last_only (nreplObjects : list Response) :
  (isLastNreplObject nreplObjects = true <->
   exists init lastObj st,
     nreplObjects = init ++ [lastObj] /\
     Resp.status lastObj = Some st /\ In "done" st) /\
  (forall init lastObj,
      isLastNreplObject (init ++ [lastObj]) = isLastNreplObject [lastObj]).
Proof.
  split.
  - rewrite isLastNreplObject_last. split.
    + intros (init & r & E & D). apply is_done_has_done in D as (st & Es & Hin).
      exists init, r, st. auto.
    + intros (init & r & st & E & Es & Hin). exists init, r.
      split; [exact E|]. apply is_done_has_done. exists st. auto.
  - intros init lastObj. apply isLastNreplObject_snoc.
Qed.

(** X8. The reduce over a decode batch keeps the batch up to and
    including its first completion object and drops the rest; a batch
    without completion object is kept whole. *)
Theorem X8_validDecodedObjects_prefix (decoded : list Response) :
  ((forall r, In r decoded -> ~ has_done r) -> validDecodedObjects decoded = decoded) /\
  (forall pre d post,
      decoded = pre ++ d :: post ->
      (forall r, In r pre -> ~ has_done r) -> has_done d ->
      validDecodedObjects decoded = pre ++ [d]).
Proof.
  assert (C : forall l, (forall r, In r l -> ~ has_done r) -> clean l = true).
  { intros l H. unfold clean. apply forallb_forall. intros r Hin.
    apply negb_true_iff. destruct (is_done r) eqn:D; [|reflexivity].
    exfalso. apply (H r Hin), is_done_has_done, D. }
  rewrite (@validDecodedObjects_through_done Demo.codec). split.
  - intros H. rewrite <- (app_nil_r decoded) at 1.
    rewrite through_done_app_clean by (apply C, H). apply app_nil_r.
  - intros pre d post -> Hpre D.
    rewrite <- (app_nil_r (pre ++ d :: post)).
    apply through_done_app_done; [apply C, Hpre | apply is_done_has_done, D].
Qed.

Lemma X8_validDecodedObjects_prefix_witness :
  validDecodedObjects
    ([Resp.empty] ++ Demo.done :: [Demo.object_of Byte.x03; Demo.done])
  = [Resp.empty] ++ [Demo.done].
Proof.
  destruct (X8_validDecodedObjects_prefix
              ([Resp.empty] ++ Demo.done :: [Demo.object_of Byte.x03; Demo.done]))
    as (_ & H).
  apply (H [Resp.empty] Demo.done [Demo.object_of Byte.x03; Demo.done] eq_refl).
  - intros r [<-|[]] (st & E & _). discriminate.
  - exists ["done"]. split; [reflexivity | left; reflexivity].
Defined.

(** ** The operations *)

Section OperationFacts.

Context `{codec : BencodeUtil}.

Lemma await_send_outcome msg connection remote w c :
  connection_or_current connection w = Some c ->
  fst (await_send msg connection remote w)
  = outcome (decoded_stream [] (hd [] remote)) (first_error (hd [] remote)).
Proof.
  intros E. rewrite (await_send_connected _ _ _ _ _ E). simpl.
  rewrite deliver_outcome by apply fresh_call_in_flight. reflexivity.
Qed.

(** [send] on an object literal, followed by a callback that settles at
    once. *)
Lemma run_literal_then {A} (o : JsObject) connection (f : list Response -> Async A)
    remote w :
  (forall l, (exists a, f l = Promise_resolve a) \/ (exists r, f l = Promise_reject r)) ->
  snd (run (then_ (send_literal o connection) f) remote w)
  = snd (await_send (length (heap w)) connection remote (snd (alloc o w))) /\
  fst (run (then_ (send_literal o connection) f) remote w)
  = match fst (await_send (length (heap w)) connection remote (snd (alloc o w))) with
    | Fulfilled l =>
        match f l with
        | Promise_resolve a => Fulfilled a
        | Promise_reject r => Rejected r
        | _ => Pending
        end
    | Rejected r => Rejected r
    | Pending => Pending
    end.
Proof.
  intros Hf. rewrite run_then, run_send_literal.
  destruct (await_send _ connection remote _) as [[|l|r] [remote' w']];
    try (split; reflexivity).
  simpl. destruct (Hf l) as [[a ->]|[r ->]]; split; reflexivity.
Qed.

Lemma sends_one_literal o connection remote w c :
  connection_or_current connection w = Some c ->
  sends_one (strip_undefined o) c w
    (snd (snd (await_send (length (heap w)) connection remote (snd (alloc o w))))).
Proof.
  intros E. destruct (await_literal o connection remote w c E) as (_ & new & S & F).
  exists new. auto.
Qed.

Lemma head_through_done l : head (through_done l) = head l.
Proof. destruct l; reflexivity. Qed.

Lemma outcome_clean stream err :
  clean stream = true ->
  outcome stream err
  = match err with Some e => Rejected (RError e) | None => Pending end.
Proof. intros C. unfold outcome. rewrite C. reflexivity. Qed.

Lemma outcome_done stream err :
  clean stream = false -> outcome stream err = Fulfilled (through_done stream).
Proof. intros C. unfold outcome. rewrite C. reflexivity. Qed.

End OperationFacts.

(** X9. [test] opens its socket to the descriptor it is given, whatever
    the current connection is, and sends a clone request without session.
    It waits for a completion object and then looks at the first response
    object only: it resolves with an empty list when that object has a
    new-session key, even an empty one, and rejects with [false] when it
    has none. A socket error before completion rejects with that error. *)
Theorem X9_test_first_object `{codec : BencodeUtil}
    (connectionInfo : CljConnectionInformation) (remote : Remote) (w : World) :
  sends_one [("op", Str "clone")] connectionInfo w
    (snd (snd (run (test connectionInfo) remote w))) /\
  (clean (decoded_stream [] (hd [] remote)) = true ->
   fst (run (test connectionInfo) remote w)
   = match first_error (hd [] remote) with
     | Some e => Rejected (RError e)
     | None => Pending
     end) /\
  (forall first others,
      decoded_stream [] (hd [] remote) = first :: others ->
      clean (first :: others) = false ->
      fst (run (test connectionInfo) remote w)
      = if bool_decide (is_Some (Resp.new_session first))
        then Fulfilled []
        else Rejected (RBool false)).
Proof.
  unfold test. rewrite !run_then.
  rewrite run_send_literal.
  pose proof (sends_one_literal [("op", Str "clone")] (Some connectionInfo) remote w
                connectionInfo eq_refl) as S.
  pose proof (await_send_outcome (length (heap w)) (Some connectionInfo) remote
                (snd (alloc [("op", Str "clone")] w)) connectionInfo eq_refl) as O.
  destruct (await_send _ (Some connectionInfo) remote _) as [p [remote' w']].
  simpl in S, O. subst p. split; [|split].
  - unfold outcome. destruct (clean _); [destruct (first_error _)|]; simpl; try exact S.
    destruct (first_response _) as [r|]; simpl; [|exact S].
    destruct (bool_decide _); exact S.
  - intros C. rewrite (outcome_clean _ _ C). destruct (first_error _); reflexivity.
  - intros first others Es C. rewrite Es, (outcome_done _ _ C). simpl.
    destruct (bool_decide _); reflexivity.
Qed.

(** X10. With a current connection, [complete] sends its three keys and
    [info] sends the session key only when a session is given. Both wait
    for a completion object and resolve with the first object that was
    decoded, which need not be the completion object; a socket error
    before completion rejects with that error. *)
Theorem X10_complete_info_first_object `{codec : BencodeUtil}
    (symbol ns : string) (session : option string)
    (c : CljConnectionInformation) (remote : Remote) (w : World) :
  getConnection w = Some c ->
  (sends_one [("op", Str "complete"); ("symbol", Str symbol); ("ns", Str ns)] c w
     (snd (snd (run (complete symbol ns) remote w))) /\
   fst (run (complete symbol ns) remote w)
   = if clean (decoded_stream [] (hd [] remote)) then
       match first_error (hd [] remote) with
       | Some e => Rejected (RError e)
       | None => Pending
       end
     else Fulfilled (head (decoded_stream [] (hd [] remote)))) /\
  (sends_one
     match session with
     | Some s => [("op", Str "info"); ("symbol", Str symbol); ("ns", Str ns);
                  ("session", Str s)]
     | None => [("op", Str "info"); ("symbol", Str symbol); ("ns", Str ns)]
     end c w
     (snd (snd (run (info symbol ns session) remote w))) /\
   fst (run (info symbol ns session) remote w)
   = if clean (decoded_stream [] (hd [] remote)) then
       match first_error (hd [] remote) with
       | Some e => Rejected (RError e)
       | None => Pending
       end
     else Fulfilled (head (decoded_stream [] (hd [] remote)))).
Proof.
  intros E.
  assert (G : forall o,
             sends_one (strip_undefined o) c w
               (snd (snd (run (then_ (send_literal o None)
                                 (fun respObjs => Promise_resolve (first_response respObjs)))
                            remote w))) /\
             fst (run (then_ (send_literal o None)
                         (fun respObjs => Promise_resolve (first_response respObjs)))
                    remote w)
             = if clean (decoded_stream [] (hd [] remote)) then
                 match first_error (hd [] remote) with
                 | Some e => Rejected (RError e)
                 | None => Pending
                 end
               else Fulfilled (head (decoded_stream [] (hd [] remote)))).
  { intros o.
    destruct (run_literal_then o None
                (fun respObjs => Promise_resolve (first_response respObjs)) remote w)
      as (W & R); [intros l; left; eauto|].
    rewrite W, R. split; [apply sends_one_literal, E|].
    rewrite (await_send_outcome _ None remote (snd (alloc o w)) c E).
    unfold outcome. destruct (clean _); [destruct (first_error _); reflexivity|].
    unfold first_response. rewrite head_through_done. reflexivity. }
  split.
  - apply (G [("op", Str "complete"); ("symbol", Str symbol); ("ns", Str ns)]).
  - destruct (G [("op", Str "info"); ("symbol", Str symbol); ("ns", Str ns);
                 ("session", of_optional session)]) as (S & R).
    split; [|exact R]. destruct session; exact S.
Qed.

Lemma X10_complete_info_first_object_witness :
  fst (run (codec := Demo.codec) (complete "ma" "user")
         [[data [Byte.x03]; data [Byte.x00; Byte.x01]]] Demo.connected)
  = Fulfilled (Some (Demo.object_of Byte.x03)).
Proof.
  destruct (X10_complete_info_first_object (codec := Demo.codec) "ma" "user" None
              Demo.localhost [[data [Byte.x03]; data [Byte.x00; Byte.x01]]]
              Demo.connected eq_refl) as ((_ & R) & _).
  rewrite R. reflexivity.
Defined.

(** X11. With a current connection, [stacktrace] and [close] send one
    request, [close] with the session key only when a session is given,
    and hand back what [send] gives without looking at it: the decoded
    objects up to the first completion object, the first socket error if
    it comes before, or a promise that stays pending. *)
Theorem X11_stacktrace_close_raw `{codec : BencodeUtil}
    (session : string) (closed : option string)
    (c : CljConnectionInformation) (remote : Remote) (w : World) :
  getConnection w = Some c ->
  (sends_one [("op", Str "stacktrace"); ("session", Str session)] c w
     (snd (snd (run (stacktrace session) remote w))) /\
   fst (run (stacktrace session) remote w)
   = outcome (decoded_stream [] (hd [] remote)) (first_error (hd [] remote))) /\
  (sends_one
     match closed with
     | Some s => [("op", Str "close"); ("session", Str s)]
     | None => [("op", Str "close")]
     end c w
     (snd (snd (run (close closed) remote w))) /\
   fst (run (close closed) remote w)
   = outcome (decoded_stream [] (hd [] remote)) (first_error (hd [] remote))).
Proof.
  intros E.
  assert (G : forall o,
             sends_one (strip_undefined o) c w
               (snd (snd (run (send_literal o None) remote w))) /\
             fst (run (send_literal o None) remote w)
             = outcome (decoded_stream [] (hd [] remote)) (first_error (hd [] remote))).
  { intros o. rewrite run_send_literal.
    split; [apply sends_one_literal, E|].
    apply (await_send_outcome _ None remote (snd (alloc o w)) c E). }
  split.
  - apply (G [("op", Str "stacktrace"); ("session", Str session)]).
  - destruct (G [("op", Str "close"); ("session", of_optional closed)]) as (S & R).
    split; [|exact R]. destruct closed; exact S.
Qed.

Lemma X11_stacktrace_close_raw_witness :
  fst (run (codec := Demo.codec) (close None)
         [[data [Byte.x00]; error Demo.econnrefused]] Demo.connected)
  = Rejected (RError Demo.econnrefused).
Proof.
  destruct (X11_stacktrace_close_raw (codec := Demo.codec) "s" None Demo.localhost
              [[data [Byte.x00]; error Demo.econnrefused]] Demo.connected eq_refl)
    as (_ & _ & R).
  rewrite R. reflexivity.
Defined.

Section FailFastFacts.

Context `{codec : BencodeUtil}.

Lemma literal_fails_fast {A} (o : JsObject) (f : list Response -> Async A) remote w :
  getConnection w = None ->
  fails_fast (then_ (send_literal o None) f) remote w.
Proof.
  intros E. unfold fails_fast. rewrite run_then, run_send_literal.
  rewrite (await_send_no_connection _ None remote (snd (alloc o w)) E).
  repeat split.
Qed.

Lemma fails_fast_then {A B} (p : Async A) (f : A -> Async B) remote w :
  fails_fast p remote w -> fails_fast (then_ p f) remote w.
Proof.
  unfold fails_fast. rewrite run_then.
  destruct (run p remote w) as [[|a|r] [remote' w']]; simpl;
    intros (H & Hr & Ht & Hs & Hc); try discriminate.
  injection H as ->. auto.
Qed.

Lemma send_literal_fails_fast (o : JsObject) remote w :
  getConnection w = None ->
  fails_fast (send_literal o None) remote w.
Proof.
  intros E. unfold fails_fast. rewrite run_send_literal.
  rewrite (await_send_no_connection _ None remote (snd (alloc o w)) E).
  repeat split.
Qed.

End FailFastFacts.

(** X12. Without a current connection every operation that is given no
    descriptor is rejected with 'No connection found.' before anything
    happens: no socket is created, no request is written, and [evaluate]
    and [evaluateFile] stop at their clone. *)
Theorem X12_operations_fail_fast `{codec : BencodeUtil}
    (symbol ns code filepath sid : string) (session : option string)
    (remote : Remote) (w : World) :
  getConnection w = None ->
  fails_fast (complete symbol ns) remote w /\
  fails_fast (info symbol ns session) remote w /\
  fails_fast (evaluate code session) remote w /\
  fails_fast (evaluateFile code filepath session) remote w /\
  fails_fast (stacktrace sid) remote w /\
  fails_fast (runTests session) remote w /\
  fails_fast (clone session) remote w /\
  fails_fast (close session) remote w /\
  fails_fast listSessions remote w.
Proof.
  intros E.
  assert (C : fails_fast (clone session) remote w)
    by (apply literal_fails_fast, E).
  split.
  { apply (literal_fails_fast
             [("op", Str "complete"); ("symbol", Str symbol); ("ns", Str ns)]
             (fun respObjs => Promise_resolve (first_response respObjs))), E. }
  split.
  { apply (literal_fails_fast
             [("op", Str "info"); ("symbol", Str symbol); ("ns", Str ns);
              ("session", of_optional session)]
             (fun respObjs => Promise_resolve (first_response respObjs))), E. }
  split; [apply fails_fast_then, C|].
  split; [apply fails_fast_then, C|].
  split; [apply send_literal_fails_fast, E|].
  split; [apply (send_literal_fails_fast _ remote w E)|].
  split; [exact C|].
  split; [apply send_literal_fails_fast, E | apply literal_fails_fast, E].
Qed.

Lemma X12_operations_fail_fast_witness :
  fails_fast (codec := Demo.codec) (evaluate "(+ 1 1)" None) [[data [Byte.x04]]]
    Demo.disconnected.
Proof.
  apply (X12_operations_fail_fast (codec := Demo.codec) "" "" "(+ 1 1)" "" "" None
           [[data [Byte.x04]]] Demo.disconnected eq_refl).
Defined.

Section CloneOutcomeFacts.

Context `{codec : BencodeUtil}.

Lemma no_done_clean l : (forall r, In r l -> ~ has_done r) -> clean l = true.
Proof.
  intros H. unfold clean. apply forallb_forall. intros r Hin.
  apply negb_true_iff. destruct (is_done r) eqn:D; [|reflexivity].
  exfalso. apply (H r Hin), is_done_has_done, D.
Qed.

(** A stream with a completion object: it is not clean, and cut after
    the first completion object it is what comes before and that object. *)
Lemma stream_with_done pre d post :
  (forall r, In r pre -> ~ has_done r) -> has_done d ->
  clean (pre ++ d :: post) = false /\ through_done (pre ++ d :: post) = pre ++ [d].
Proof.
  intros Hpre D. apply no_done_clean in Hpre. apply is_done_has_done in D. split.
  - rewrite clean_app_eq, Hpre. unfold clean. simpl. rewrite D. reflexivity.
  - rewrite <- (app_nil_r (pre ++ d :: post)).
    apply through_done_app_done; assumption.
Qed.

(** The world a call on a fresh literal leaves: one object more, at most
    one socket more. *)
Lemma await_literal_size o connection remote w :
  length (heap (snd (snd (await_send (length (heap w)) connection remote
                            (snd (alloc o w))))))
  = S (length (heap w)) /\
  sockets (snd (snd (await_send (length (heap w)) connection remote (snd (alloc o w)))))
  <= S (sockets w).
Proof.
  destruct (connection_or_current connection (snd (alloc o w))) as [c|] eqn:E.
  - destruct (await_send_world (length (heap w)) connection remote (snd (alloc o w)) c E)
      as (H & S & _).
    rewrite H, S. unfold started. cbn [heap sockets].
    rewrite length_insert. simpl. rewrite length_app. simpl. lia.
  - rewrite (await_send_no_connection _ _ _ _ E). simpl.
    rewrite length_app. simpl. lia.
Qed.

Lemma run_clone_rejected session remote w r rw :
  run (clone session) remote w = (Rejected r, rw) ->
  r = RString "No connection found." \/ r = RString "No session found" \/
  exists e, r = RError e.
Proof.
  rewrite run_clone, run_send_literal.
  destruct (await_send _ None remote _) as [[|l|r'] [remote' w']] eqn:A;
    try discriminate.
  - destruct (clone_then_cases l) as [(? & ? & ? & s & _ & _ & _ & _ & ->)|[_ ->]];
      simpl; intros H; [discriminate|]. injection H as <- _. auto.
  - intros H. injection H as <- _.
    apply await_send_rejected in A as [->|[e ->]]; eauto.
Qed.

End CloneOutcomeFacts.

(** X13. [evaluate] and [evaluateFile] stop at a clone that fails: they
    are rejected with the reason of the clone, which is 'No connection
    found.', 'No session found' or a socket error, and no eval or
    load-file request is built or sent: the world is the one the clone
    left, with one request object and at most one socket more. While the
    clone is pending they are pending. *)
Theorem X13_evaluate_stops_at_failed_clone `{codec : BencodeUtil}
    (code filepath : string) (session : option string) (remote : Remote) (w : World) :
  (forall r rw,
      run (clone session) remote w = (Rejected r, rw) ->
      run (evaluate code session) remote w = (Rejected r, rw) /\
      run (evaluateFile code filepath session) remote w = (Rejected r, rw) /\
      (r = RString "No connection found." \/ r = RString "No session found" \/
       exists e, r = RError e) /\
      length (heap (snd rw)) = S (length (heap w)) /\
      sockets (snd rw) <= S (sockets w)) /\
  (forall rw,
      run (clone session) remote w = (Pending, rw) ->
      run (evaluate code session) remote w = (Pending, rw) /\
      run (evaluateFile code filepath session) remote w = (Pending, rw)).
Proof.
  split.
  - intros r rw H. unfold evaluate, evaluateFile. rewrite !run_then, H.
    split; [reflexivity|]. split; [reflexivity|].
    split; [eapply run_clone_rejected, H|].
    pose proof (run_clone_world session remote w) as Wd.
    rewrite H, run_send_literal in Wd. cbn [snd] in Wd.
    pose proof (await_literal_size
                  [("op", Str "clone"); ("session", of_optional session)]
                  None remote w) as Sz.
    rewrite <- Wd in Sz. exact Sz.
  - intros rw H. unfold evaluate, evaluateFile. rewrite !run_then, H.
    split; reflexivity.
Qed.

Lemma X13_evaluate_stops_at_failed_clone_witness :
  run (codec := Demo.codec) (evaluate "(+ 1 1)" None)
    [[data [Byte.x01]]; [data [Byte.x01]]] Demo.connected
  = (Rejected (RString "No session found"),
     snd (run (codec := Demo.codec) (clone None)
            [[data [Byte.x01]]; [data [Byte.x01]]] Demo.connected)).
Proof.
  destruct (X13_evaluate_stops_at_failed_clone (codec := Demo.codec) "(+ 1 1)" "" None
              [[data [Byte.x01]]; [data [Byte.x01]]] Demo.connected) as (R & _).
  apply (R (RString "No session found")
           (snd (run (codec := Demo.codec) (clone None)
                   [[data [Byte.x01]]; [data [Byte.x01]]] Demo.connected))).
  reflexivity.
Defined.

(** X14. With a current connection, [clone] waits for a completion
    object: a socket error before it rejects with that error, and until
    then the promise is pending. Only the objects up to the first
    completion object count: when none of them has a non-empty
    new-session, [clone] rejects with 'No session found' whatever is
    decoded after the completion object, and otherwise it resolves with
    the first non-empty new-session among them. *)
Theorem X14_clone_until_completion `{codec : BencodeUtil}
    (session : option string) (c : CljConnectionInformation)
    (remote : Remote) (w : World) :
  getConnection w = Some c ->
  (clean (decoded_stream [] (hd [] remote)) = true ->
   fst (run (clone session) remote w)
   = match first_error (hd [] remote) with
     | Some e => Rejected (RError e)
     | None => Pending
     end) /\
  (forall pre d post,
      decoded_stream [] (hd [] remote) = pre ++ d :: post ->
      (forall r, In r pre -> ~ has_done r) -> has_done d ->
      ((forall r, In r (pre ++ [d]) -> truthy (Resp.new_session r) = false) ->
       fst (run (clone session) remote w) = Rejected (RString "No session found")) /\
      (forall pre0 r0 post0 sid,
          pre ++ [d] = pre0 ++ r0 :: post0 ->
          (forall r, In r pre0 -> truthy (Resp.new_session r) = false) ->
          Resp.new_session r0 = Some sid -> sid <> "" ->
          fst (run (clone session) remote w) = Fulfilled sid)).
Proof.
  intros E.
  destruct (run_literal_then [("op", Str "clone"); ("session", of_optional session)]
              None clone_then remote w clone_then_settled) as (_ & R).
  unfold clone. rewrite R.
  rewrite (await_send_outcome _ None remote
             (snd (alloc [("op", Str "clone"); ("session", of_optional session)] w)) c E).
  split.
  - intros C. rewrite (outcome_clean _ _ C). destruct (first_error _); reflexivity.
  - intros pre d post Es Hpre D.
    destruct (stream_with_done pre d post Hpre D) as (C & T).
    rewrite Es, (outcome_done _ _ C), T.
    destruct (clone_then_cases (pre ++ [d]))
      as [(pre1 & r1 & post1 & s1 & E1 & Hpre1 & Er1 & N1 & ->)|[Hall ->]].
    + split.
      * intros Hall. exfalso.
        assert (Hin : In r1 (pre ++ [d])) by (rewrite E1; apply in_elt).
        specialize (Hall r1 Hin). rewrite Er1 in Hall.
        apply truthy_nonempty in N1. congruence.
      * intros pre0 r0 post0 sid E0 Hpre0 Er0 N0. f_equal.
        assert (r1 = r0) as ->; [|congruence].
        apply (first_truthy_unique pre1 r1 post1 pre0 r0 post0); auto;
          [congruence | rewrite Er1 | rewrite Er0]; apply truthy_nonempty; assumption.
    + split; [reflexivity|].
      intros pre0 r0 post0 sid E0 _ Er0 N0. exfalso.
      assert (Hin : In r0 (pre ++ [d])) by (rewrite E0; apply in_elt).
      specialize (Hall r0 Hin). rewrite Er0 in Hall.
      apply truthy_nonempty in N0. congruence.
Qed.

(** A new-session that comes after the completion object is not seen. *)
Lemma X14_clone_until_completion_witness :
  fst (run (codec := Demo.codec) (clone None) [[data [Byte.x01; Byte.x04]]]
         Demo.connected)
  = Rejected (RString "No session found").
Proof.
  destruct (X14_clone_until_completion (codec := Demo.codec) None Demo.localhost
              [[data [Byte.x01; Byte.x04]]] Demo.connected eq_refl) as (_ & H).
  destruct (H [] Demo.done [Demo.object_of Byte.x04] eq_refl) as (R & _).
  - intros r [].
  - exists ["done"]. split; [reflexivity | left; reflexivity].
  - apply R. intros r [<-|[]]. reflexivity.
Defined.

(** X15. Once its clone has resolved, [evaluate] or [evaluateFile] is
    what its own request becomes: it is decided by what the second socket
    delivers, and it resolves with the response objects of that socket up
    to the first completion object. The response objects of the clone are
    not part of the result. *)
Theorem X15_evaluate_result `{codec : BencodeUtil}
    (code filepath : string) (session : option string) (remote : Remote) (w : World)
    (sid : string) (rw : Remote * World) :
  run (clone session) remote w = (Fulfilled sid, rw) ->
  fst (run (evaluate code session) remote w)
  = outcome (decoded_stream [] (hd [] (tl remote))) (first_error (hd [] (tl remote))) /\
  fst (run (evaluateFile code filepath session) remote w)
  = outcome (decoded_stream [] (hd [] (tl remote))) (first_error (hd [] (tl remote))).
Proof.
  intros H. destruct rw as [remote1 w1]. unfold evaluate, evaluateFile.
  rewrite !run_then, H.
  apply run_clone_fulfilled in H as (c & E & -> & _ & Hc & _).
  assert (E1 : forall o, connection_or_current None (snd (alloc o w1)) = Some c)
    by (intros o; unfold connection_or_current, getConnection in *; simpl; congruence).
  split.
  - change (new_object [("op", Str "eval"); ("code", Str code); ("session", Str sid)]
              (fun msg => send msg None))
      with (send_literal [("op", Str "eval"); ("code", Str code); ("session", Str sid)]
              None).
    rewrite run_send_literal. apply (await_send_outcome _ None _ _ c (E1 _)).
  - change (new_object
              [("op", Str "load-file"); ("file", Str code); ("file-path", Str filepath);
               ("session", Str sid)] (fun msg => send msg None))
      with (send_literal
              [("op", Str "load-file"); ("file", Str code); ("file-path", Str filepath);
               ("session", Str sid)] None).
    rewrite run_send_literal. apply (await_send_outcome _ None _ _ c (E1 _)).
Qed.

Lemma X15_evaluate_result_witness :
  fst (run (codec := Demo.codec) (evaluate "(+ 1 1)" None)
         [[data [Byte.x04]]; [data [Byte.x00; Byte.x01]]] Demo.connected)
  = Fulfilled [Resp.empty; Demo.done].
Proof.
  destruct (X15_evaluate_result (codec := Demo.codec) "(+ 1 1)" "" None
              [[data [Byte.x04]]; [data [Byte.x00; Byte.x01]]] Demo.connected "b"
              (snd (run (codec := Demo.codec) (clone None)
                      [[data [Byte.x04]]; [data [Byte.x00; Byte.x01]]] Demo.connected))
              eq_refl) as (R & _).
  rewrite R. reflexivity.
Defined.
